(** * cgroup.cpp: memory and cpu limits of the current process

    A shallow embedding of [src/pal/src/misc/cgroup.cpp] (class [CGroup] and
    the three PAL entry points) together with the properties stated about it.

    Conventions of the embedding.
    - Data model LP64: [size_t], [unsigned long long] and [rlim_t] are 64-bit
      unsigned, [long] and [long long] 64-bit signed, [UINT] 32-bit unsigned.
      Integers are [Z]; every wrap-around is written out with [mod].
    - A C string is a [list ascii] without its terminating NUL.  A [char*]
      that may be [nullptr] is an [option cstring].
    - A [FILE*] opened for reading is the list of the lines [getline] will
      still deliver.  The file system is a read-only function from names to
      contents; every [fopen] is recorded in a log.
    - An output pointer is either [nullptr] or valid.  A function with an
      output parameter returns, next to its C result, the value it left in
      the pointee ([None] when it never wrote).  Writing through, or handing
      to the C library, a null pointer that the callee dereferences is the
      outcome [Crash].
    - [PAL_malloc] is taken to succeed; [_ASSERTE] is the release build's
      no-op.
    - The C library is the ISO C one as implemented by glibc: [strtoull] and
      [atoll] set [errno] only on a range error ([ERANGE]). *)

From Stdlib Require Import ZArith List Ascii String Bool Lia.
Import ListNotations.
Local Open Scope Z_scope.

(** ** C strings *)

Definition cstring := list ascii.

Definition str (s : string) : cstring := list_ascii_of_string s.

Definition NUL : ascii := Ascii.zero.
Definition LF : ascii := ascii_of_nat 10.

Definition code (c : ascii) : Z := Z.of_nat (nat_of_ascii c).

Definition cstring_eqb (a b : cstring) : bool :=
  if list_eq_dec ascii_dec a b then true else false.

(** The bytes of a buffer up to its first NUL: what the C string functions
    see of it. *)
Fixpoint c_str (buf : list ascii) : cstring :=
  match buf with
  | [] => []
  | c :: r => if Ascii.eqb c NUL then [] else c :: c_str r
  end.

(** [isspace] in the C locale: space, and the controls 9 to 13. *)
Definition isspace (c : ascii) : bool :=
  (code c =? 32) || ((9 <=? code c) && (code c <=? 13)).

(** Longest prefix whose characters satisfy [p], and the rest. *)
Fixpoint span (p : ascii -> bool) (s : cstring) : cstring * cstring :=
  match s with
  | [] => ([], [])
  | c :: r => if p c then let (a, b) := span p r in (c :: a, b) else ([], s)
  end.

Fixpoint skip (p : ascii -> bool) (s : cstring) : cstring :=
  match s with
  | [] => []
  | c :: r => if p c then skip p r else s
  end.

Definition mem_char (c : ascii) (set : cstring) : bool :=
  existsb (Ascii.eqb c) set.

(** [strchr(s, c)]: the suffix of [s] starting at the first [c], or NULL. *)
Fixpoint strchr (s : cstring) (c : ascii) : option cstring :=
  match s with
  | [] => None
  | d :: r => if Ascii.eqb d c then Some s else strchr r c
  end.

(** [strncmp(a, b, n) == 0]. *)
Definition strncmp_eq0 (a b : cstring) (n : nat) : bool :=
  cstring_eqb (firstn n a) (firstn n b).

(** [strcmp(a, b) == 0]. *)
Definition strcmp_eq0 (a b : cstring) : bool := cstring_eqb a b.

(** ** Streams and [getline] *)

(** The lines of a file as successive [getline] calls return them: each
    keeps its newline, the last one may lack it. *)
Fixpoint file_lines (content : list ascii) : list (list ascii) :=
  match content with
  | [] => []
  | c :: r =>
      if Ascii.eqb c LF then [c] :: file_lines r
      else match file_lines r with
           | [] => [[c]]
           | l :: ls => (c :: l) :: ls
           end
  end.

Definition FILE := list (list ascii).

(** [getline(&line, &lineLen, file)]: [None] is the return value -1. *)
Definition getline (file : FILE) : option (cstring * FILE) :=
  match file with
  | [] => None
  | l :: rest => Some (c_str l, rest)
  end.

(** ** [strtok_s] *)

(** [strtok_s(str, delim, &context)]: the next token and the new context;
    with [str = None] (NULL) scanning resumes at the context. *)
Definition strtok_s (s : option cstring) (delim : cstring) (context : cstring)
  : option cstring * cstring :=
  let start := match s with Some s => s | None => context end in
  match skip (fun c => mem_char c delim) start with
  | [] => (None, [])
  | t =>
      let (tok, rest) := span (fun c => negb (mem_char c delim)) t in
      (Some tok, tl rest)
  end.

(** ** Integer conversions of the C library *)

Definition ULLONG_MAX : Z := 2 ^ 64 - 1.
Definition LLONG_MAX : Z := 2 ^ 63 - 1.
Definition LLONG_MIN : Z := - 2 ^ 63.
Definition SIZE_T_MAX : Z := 2 ^ 64 - 1.
Definition UINT_MAX : Z := 2 ^ 32 - 1.
Definition ERANGE : Z := 34.
Definition EOF : Z := -1.

Definition to_size_t (z : Z) : Z := z mod 2 ^ 64.

(** Value of a character as a digit in bases up to 36. *)
Definition digit_val (c : ascii) : Z :=
  let n := code c in
  if (48 <=? n) && (n <=? 57) then n - 48
  else if (97 <=? n) && (n <=? 122) then n - 87
  else if (65 <=? n) && (n <=? 90) then n - 55
  else 36.

Definition is_digit (base : Z) (c : ascii) : bool := digit_val c <? base.

Definition digits_value (base : Z) (ds : cstring) : Z :=
  fold_left (fun acc c => acc * base + digit_val c) ds 0.

Definition is_char (s : string) (c : ascii) : bool := mem_char c (str s).

(** Optional sign: [(negative, rest)]. *)
Definition read_sign (s : cstring) : bool * cstring :=
  match s with
  | c :: r => if is_char "-" c then (true, r)
              else if is_char "+" c then (false, r) else (false, s)
  | [] => (false, s)
  end.

(** Base detection of [strtoull] with base 0. *)
Definition detect_base (s : cstring) : Z * cstring :=
  match s with
  | z :: x :: h :: r =>
      if is_char "0" z && is_char "xX" x && is_digit 16 h then (16, h :: r)
      else if is_char "0" z then (8, s) else (10, s)
  | z :: _ => if is_char "0" z then (8, s) else (10, s)
  | [] => (10, s)
  end.

(** [strtoull(nptr, &endptr, 0)] with [errno] cleared before the call:
    the result, the text at [endptr], and [errno] after the call. *)
Definition strtoull (nptr : cstring) : Z * cstring * Z :=
  let (neg, s2) := read_sign (skip isspace nptr) in
  let (base, s3) := detect_base s2 in
  let (ds, rest) := span (is_digit base) s3 in
  match ds with
  | [] => (0, nptr, 0)
  | _ =>
      let v := digits_value base ds in
      if ULLONG_MAX <? v then (ULLONG_MAX, rest, ERANGE)
      else (if neg then to_size_t (- v) else v, rest, 0)
  end.

(** [atoll(nptr)], which is [strtoll(nptr, NULL, 10)], with [errno]
    cleared before the call: the result and [errno] after the call. *)
Definition atoll (nptr : cstring) : Z * Z :=
  let (neg, s2) := read_sign (skip isspace nptr) in
  let (ds, _) := span (is_digit 10) s2 in
  let v := digits_value 10 ds in
  if neg then (if - v <? LLONG_MIN then (LLONG_MIN, ERANGE) else (- v, 0))
  else (if LLONG_MAX <? v then (LLONG_MAX, ERANGE) else (v, 0)).

(** ** [sscanf_s] for the three formats the source uses *)

(** The conversion [%s]: skip white space, then take the longest run of
    non-white-space characters; [None] when the input ends first. *)
Definition scan_s (s : cstring) : option (cstring * cstring) :=
  match skip isspace s with
  | [] => None
  | t => Some (span (fun c => negb (isspace c)) t)
  end.

(** Modelled from the spec: [sscanf_s] belongs to the PAL's safe CRT, which
    is not under src/.  On the format ["- %s %*s %s"] it follows the C
    scanning rules; on a NULL input string it fails its parameter validation
    and returns [EOF], so that a line without the separator makes the scan
    fail closed, as the spec requires of malformed lines.  The result is the
    return value and the contents of the two receiving buffers. *)
Definition sscanf_s_fs_options (input : option cstring) : Z * cstring * cstring :=
  match input with
  | None => (EOF, [], [])
  | Some [] => (EOF, [], [])
  | Some (c :: r) =>
      if negb (is_char "-" c) then (0, [], [])
      else match scan_s r with
           | None => (EOF, [], [])
           | Some (filesystemType, r1) =>
               match scan_s r1 with
               | None => (1, filesystemType, [])
               | Some (_, r2) =>
                   match scan_s r2 with
                   | None => (1, filesystemType, [])
                   | Some (options, _) => (2, filesystemType, options)
                   end
               end
           end
  end.

(** [sscanf_s(line, "%*s %*s %*s %*s %s ", mountpath, n)]: four fields are
    skipped and the fifth is stored. *)
Definition sscanf_s_mountpath (line : cstring) : Z * cstring :=
  match scan_s line with
  | None => (EOF, [])
  | Some (_, r1) =>
  match scan_s r1 with
  | None => (EOF, [])
  | Some (_, r2) =>
  match scan_s r2 with
  | None => (EOF, [])
  | Some (_, r3) =>
  match scan_s r3 with
  | None => (EOF, [])
  | Some (_, r4) =>
  match scan_s r4 with
  | None => (EOF, [])
  | Some (mountpath, _) => (1, mountpath)
  end end end end end.

Definition not_colon (c : ascii) : bool := negb (is_char ":" c).

(** [sscanf_s(line, "%*[^:]:%[^:]:%s", subsystem_list, n, cgroup_path, n)].
    A scan set does not skip white space and needs one character at
    least. *)
Definition sscanf_s_cgroup (line : cstring) : Z * cstring * cstring :=
  match span not_colon line with
  | ([], []) => (EOF, [], [])
  | ([], _) => (0, [], [])
  | (_, []) => (EOF, [], [])
  | (_, _ :: r1) =>
      match span not_colon r1 with
      | ([], []) => (EOF, [], [])
      | ([], _) => (0, [], [])
      | (subsystem_list, []) => (1, subsystem_list, [])
      | (subsystem_list, _ :: r2) =>
          match scan_s r2 with
          | None => (1, subsystem_list, [])
          | Some (cgroup_path, _) => (2, subsystem_list, cgroup_path)
          end
      end
  end.

(** ** The environment, the state and the monad *)

(** What the process can observe and never changes during a query. *)
Record Env := {
  fs : cstring -> option (list ascii);   (* contents, [None]: fopen fails *)
  getrlimit_AS : option Z;               (* [rlim_cur], [None]: getrlimit fails *)
  sysconf_PHYS_PAGES : Z;                (* -1 on failure *)
  sysconf_PAGE_SIZE : Z;                 (* -1 on failure *)
  VIRTUAL_PAGE_SIZE : Z                  (* from pal/virtual.h *)
}.

Record CGroup := {
  m_memory_cgroup_path : option cstring;
  m_cpu_cgroup_path : option cstring
}.

(** The query object and the log of the names given to [fopen]. *)
Record State := {
  self : CGroup;
  opened : list cstring
}.

Inductive outcome (A : Type) : Type :=
| Crash : outcome A
| Ok : A -> State -> outcome A.
Arguments Crash {A}.
Arguments Ok {A} _ _.

Definition M (A : Type) : Type := State -> outcome A.

Definition ret {A} (a : A) : M A := fun s => Ok a s.

Definition bind {A B} (m : M A) (k : A -> M B) : M B :=
  fun s => match m s with
           | Crash => Crash
           | Ok a s' => k a s'
           end.

Definition crash {A} : M A := fun _ => Crash.

Notation "x <- m ;; k" := (bind m (fun x => k))
  (at level 61, m at next level, right associativity).
Notation "m ;;; k" := (bind m (fun _ => k))
  (at level 61, right associativity).

Definition get_self : M CGroup := fun s => Ok (self s) s.

Definition set_self (c : CGroup) : M unit :=
  fun s => Ok tt {| self := c; opened := opened s |}.

Definition fopen (env : Env) (filename : cstring) : M (option FILE) :=
  fun s => Ok (option_map file_lines (fs env filename))
              {| self := self s; opened := opened s ++ [filename] |}.

(** Output pointers. *)
Inductive ptr : Type := nullptr | valid.

(** [*p = v]: the pointee afterwards. *)
Definition store (p : ptr) (v : Z) : M (option Z) :=
  match p with
  | nullptr => crash
  | valid => ret (Some v)
  end.

Definition pointee (written : option Z) : Z :=
  match written with Some v => v | None => 0 end.

(** ** Constants of the source *)

Definition PROC_MOUNTINFO_FILENAME : cstring := str "/proc/self/mountinfo".
Definition PROC_CGROUP_FILENAME : cstring := str "/proc/self/cgroup".
Definition PROC_STATM_FILENAME : cstring := str "/proc/self/statm".
Definition MEM_LIMIT_FILENAME : cstring := str "/memory.limit_in_bytes".
Definition CFS_QUOTA_FILENAME : cstring := str "/cpu.cfs_quota_us".
Definition CFS_PERIOD_FILENAME : cstring := str "/cpu.cfs_period_us".

(** [RLIM_INFINITY] of <sys/resource.h> on Linux, all bits set. *)
Definition RLIM_INFINITY : Z := 2 ^ 64 - 1.

(** ** class CGroup: discovery of the cgroup directories *)

Definition IsMemorySubsystem (strTok : cstring) : bool :=
  strcmp_eq0 (str "memory") strTok.

Definition IsCpuSubsystem (strTok : cstring) : bool :=
  strcmp_eq0 (str "cpu") strTok.

(** The loop
    [while (strTok != nullptr) { if (is_subsystem(strTok)) ...;
                                 strTok = strtok_s(nullptr, ",", &context); }]
    started after the first [strtok_s] call; [true] when a token matched.
    Every turn consumes one character of the context at least, so its
    length bounds the number of turns. *)
Fixpoint token_loop (fuel : nat) (is_subsystem : cstring -> bool)
    (strTok : option cstring) (context : cstring) : bool :=
  match fuel with
  | O => false
  | S n =>
      match strTok with
      | None => false
      | Some tok =>
          if is_subsystem tok then true
          else let (strTok', context') := strtok_s None (str ",") context in
               token_loop n is_subsystem strTok' context'
      end
  end.

Definition has_subsystem_token (is_subsystem : cstring -> bool)
    (subsystems : cstring) : bool :=
  let (strTok, context) := strtok_s (Some subsystems) (str ",") [] in
  token_loop (S (List.length subsystems)) is_subsystem strTok context.

(** What one turn of a line loop decides. *)
Inductive verdict : Type :=
| Next                              (* go on with the following line *)
| Done (result : option cstring).   (* goto done, with this return value *)

(** Body of the [while] loop of [FindHierarchyMount] for one line. *)
Definition mountinfo_line (is_subsystem : cstring -> bool) (line : cstring)
  : verdict :=
  let separatorChar := strchr line "-"%char in
  let '(sscanfRet, filesystemType, options) := sscanf_s_fs_options separatorChar in
  if negb (sscanfRet =? 2) then Done None
  else if strncmp_eq0 filesystemType (str "cgroup") 6 then
    if has_subsystem_token is_subsystem options then
      let (sscanfRet, mountpath) := sscanf_s_mountpath line in
      if negb (sscanfRet =? 1) then Done None else Done (Some mountpath)
    else Next
  else Next.

Fixpoint FindHierarchyMount_loop (is_subsystem : cstring -> bool)
    (mountinfofile : FILE) : option cstring :=
  match mountinfofile with
  | [] => None
  | l :: rest =>
      match mountinfo_line is_subsystem (c_str l) with
      | Done r => r
      | Next => FindHierarchyMount_loop is_subsystem rest
      end
  end.

Definition FindHierarchyMount (env : Env) (is_subsystem : cstring -> bool)
  : M (option cstring) :=
  mountinfofile <- fopen env PROC_MOUNTINFO_FILENAME ;;
  match mountinfofile with
  | None => ret None
  | Some f => ret (FindHierarchyMount_loop is_subsystem f)
  end.

(** Body of the [while] loop of [FindCGroupPathForSubsystem] for one
    line: [Done (Some p)] is [result = true] with [cgroup_path = p]. *)
Definition cgroup_line (is_subsystem : cstring -> bool) (line : cstring)
  : verdict :=
  let '(sscanfRet, subsystem_list, cgroup_path) := sscanf_s_cgroup line in
  if negb (sscanfRet =? 2) then Done None
  else if has_subsystem_token is_subsystem subsystem_list
       then Done (Some cgroup_path)
       else Next.

Fixpoint FindCGroupPathForSubsystem_loop (is_subsystem : cstring -> bool)
    (cgroupfile : FILE) : option cstring :=
  match cgroupfile with
  | [] => None
  | l :: rest =>
      match cgroup_line is_subsystem (c_str l) with
      | Done r => r
      | Next => FindCGroupPathForSubsystem_loop is_subsystem rest
      end
  end.

Definition FindCGroupPathForSubsystem (env : Env) (is_subsystem : cstring -> bool)
  : M (option cstring) :=
  cgroupfile <- fopen env PROC_CGROUP_FILENAME ;;
  match cgroupfile with
  | None => ret None
  | Some f => ret (FindCGroupPathForSubsystem_loop is_subsystem f)
  end.

(** [FindMemoryCgroupPath] and [FindCpuCgroupPath] differ in the predicate
    only. *)
Definition FindCgroupPath (env : Env) (is_subsystem : cstring -> bool)
  : M (option cstring) :=
  hierarchy_mount <- FindHierarchyMount env is_subsystem ;;
  match hierarchy_mount with
  | None => ret None
  | Some mount =>
      cgroup_path_relative_to_mount <- FindCGroupPathForSubsystem env is_subsystem ;;
      match cgroup_path_relative_to_mount with
      | None => ret None
      | Some rel => ret (Some (mount ++ rel))
      end
  end.

Definition FindMemoryCgroupPath (env : Env) : M (option cstring) :=
  FindCgroupPath env IsMemorySubsystem.

Definition FindCpuCgroupPath (env : Env) : M (option cstring) :=
  FindCgroupPath env IsCpuSubsystem.

(** The constructor [CGroup()]. *)
Definition CGroup_ctor (env : Env) : M unit :=
  memory_path <- FindMemoryCgroupPath env ;;
  cpu_path <- FindCpuCgroupPath env ;;
  set_self {| m_memory_cgroup_path := memory_path;
              m_cpu_cgroup_path := cpu_path |}.

(** ** class CGroup: the readers *)

(** The [switch] on [*endptr]: a label is entered and control falls
    through every assignment below it. *)
Definition suffix_multiplier (c : ascii) : Z :=
  let multiplier := 1 in
  let multiplier := if is_char "gG" c then 1024 else multiplier in
  let multiplier := if is_char "gGmM" c then multiplier * 1024 else multiplier in
  let multiplier := if is_char "gGmMkK" c then multiplier * 1024 else multiplier in
  multiplier.

Definition ReadMemoryValueFromFile (env : Env) (filename : cstring) (val : ptr)
  : M (bool * option Z) :=
  match val with
  | nullptr => ret (false, None)
  | valid =>
      file <- fopen env filename ;;
      match file with
      | None => ret (false, None)
      | Some f =>
          match getline f with
          | None => ret (false, None)
          | Some (line, _) =>
              let '(num, endptr, errno) := strtoull line in
              if negb (errno =? 0) then ret (false, None)
              else
                let multiplier := suffix_multiplier (hd NUL endptr) in
                written <- store val (to_size_t (num * multiplier)) ;;
                if negb (pointee written / multiplier =? num)
                then ret (false, written)
                else ret (true, written)
          end
      end
  end.

Definition ReadLongLongValueFromFile (env : Env) (filename : cstring) (val : ptr)
  : M (bool * option Z) :=
  match val with
  | nullptr => ret (false, None)
  | valid =>
      file <- fopen env filename ;;
      match file with
      | None => ret (false, None)
      | Some f =>
          match getline f with
          | None => ret (false, None)
          | Some (line, _) =>
              let (v, errno) := atoll line in
              written <- store val v ;;
              if negb (errno =? 0) then ret (false, written)
              else ret (true, written)
          end
      end
  end.

Definition ReadCpuCGroupValue (env : Env) (subsystemFilename : cstring) : M Z :=
  this <- get_self ;;
  match m_cpu_cgroup_path this with
  | None => ret (-1)
  | Some path =>
      let filename := path ++ subsystemFilename in
      r <- ReadLongLongValueFromFile env filename valid ;;
      let (result, val) := r in
      if negb result then ret (-1) else ret (pointee val)
  end.

Definition GetPhysicalMemoryLimit (env : Env) (val : ptr) : M (bool * option Z) :=
  this <- get_self ;;
  match m_memory_cgroup_path this with
  | None => ret (false, None)
  | Some path =>
      let mem_limit_filename := path ++ MEM_LIMIT_FILENAME in
      ReadMemoryValueFromFile env mem_limit_filename val
  end.

Definition GetCpuLimit (env : Env) (val : ptr) : M (bool * option Z) :=
  quota <- ReadCpuCGroupValue env CFS_QUOTA_FILENAME ;;
  if quota <=? 0 then ret (false, None)
  else
    period <- ReadCpuCGroupValue env CFS_PERIOD_FILENAME ;;
    if period <=? 0 then ret (false, None)
    else if quota <=? period then
      written <- store val 1 ;;
      ret (true, written)
    else
      let cpu_count := Z.quot quota period in
      if cpu_count <? UINT_MAX then
        written <- store val cpu_count ;;
        ret (true, written)
      else
        written <- store val UINT_MAX ;;
        ret (true, written).

(** ** The PAL entry points *)

Definition PAL_GetRestrictedPhysicalMemoryLimit (env : Env) : M Z :=
  CGroup_ctor env ;;;
  r <- GetPhysicalMemoryLimit env valid ;;
  let (ok, written) := r in
  let physical_memory_limit := if negb ok then SIZE_T_MAX else pointee written in
  let rlimit_soft_limit :=
    match getrlimit_AS env with
    | Some rlim_cur => to_size_t rlim_cur
    | None => to_size_t RLIM_INFINITY
    end in
  let physical_memory_limit := Z.min physical_memory_limit rlimit_soft_limit in
  let pages := sysconf_PHYS_PAGES env in
  let physical_memory_limit :=
    if negb (pages =? -1) then
      let pageSize := sysconf_PAGE_SIZE env in
      if negb (pageSize =? -1) then
        Z.min physical_memory_limit
              (to_size_t (to_size_t pages * to_size_t pageSize))
      else physical_memory_limit
    else physical_memory_limit in
  if physical_memory_limit =? SIZE_T_MAX then ret 0
  else ret physical_memory_limit.

Definition PAL_GetWorkingSetSize (env : Env) (val : ptr) : M (bool * option Z) :=
  match val with
  | nullptr => ret (false, None)
  | valid =>
      file <- fopen env PROC_STATM_FILENAME ;;
      match match file with Some f => getline f | None => None end with
      | Some (line, _) =>
          let (_, context) := strtok_s (Some line) (str " ") [] in
          let (strTok, _) := strtok_s None (str " ") context in
          match strTok with
          | None => crash                       (* strtoull(NULL, ...) *)
          | Some tok =>
              let '(v, _, errno) := strtoull tok in
              written <- store val v ;;
              if errno =? 0 then
                written <- store val
                             (to_size_t (pointee written * VIRTUAL_PAGE_SIZE env)) ;;
                ret (true, written)
              else ret (false, written)
          end
      | None => ret (false, None)
      end
  end.

Definition PAL_GetCpuLimit (env : Env) (val : ptr) : M (bool * option Z) :=
  CGroup_ctor env ;;;
  match val with
  | nullptr => ret (false, None)
  | valid => GetCpuLimit env val
  end.

(** ** Vocabulary of the properties *)

(** Fields of a text cut at every character satisfying [p]; the empty
    fields are kept. *)
Fixpoint split_on (p : ascii -> bool) (s : cstring) : list cstring :=
  match s with
  | [] => [[]]
  | c :: r =>
      if p c then [] :: split_on p r
      else match split_on p r with
           | f :: fs => (c :: f) :: fs
           | [] => [[c]]
           end
  end.

Definition nonempty (s : cstring) : bool :=
  match s with [] => false | _ => true end.

(** The non-empty fields: the tokens in the sense of [strtok] and of the
    [%s] conversions. *)
Definition tokens (p : ascii -> bool) (s : cstring) : list cstring :=
  filter nonempty (split_on p s).

Definition is_comma (c : ascii) : bool := mem_char c (str ",").
Definition is_blank (c : ascii) : bool := mem_char c (str " ").

(** Comma-separated tokens of an option or subsystem list. *)
Definition comma_tokens (s : cstring) : list cstring := tokens is_comma s.

(** White-space-delimited fields of a line. *)
Definition words (s : cstring) : list cstring := tokens isspace s.

(** The text after the first occurrence of [c]. *)
Fixpoint after_first (c : ascii) (s : cstring) : option cstring :=
  match s with
  | [] => None
  | d :: r => if Ascii.eqb d c then Some r else after_first c r
  end.

(** The text after the separator field of a mountinfo line, the first
    dash that stands between two blanks. *)
Fixpoint after_separator (s : cstring) : option cstring :=
  match s with
  | [] => None
  | a :: t =>
      match t with
      | b :: c :: r =>
          if is_blank a && Ascii.eqb b "-"%char && is_blank c then Some r
          else after_separator t
      | _ => None
      end
  end.

(** A mountinfo line is malformed when it has no separator field, or fewer
    than the three fields (type, source, options) after it. *)
Definition lacks_fields_after_separator (line : cstring) : bool :=
  match after_separator line with
  | None => true
  | Some t => (List.length (words t) <? 3)%nat
  end.

(** A line of the cgroup membership listing, [<id>:<subsystems>:<path>]. *)
Record membership := {
  hierarchy_id : cstring;
  subsystem_list : cstring;
  cgroup_path : cstring
}.

Definition membership_line (m : membership) : list ascii :=
  hierarchy_id m ++ str ":" ++ subsystem_list m ++ str ":" ++ cgroup_path m ++ [LF].

Definition no_char (p : ascii -> bool) (s : cstring) : Prop :=
  forallb (fun c => negb (p c)) s = true.

Definition is_nul (c : ascii) : bool := Ascii.eqb c NUL.
Definition is_colon (c : ascii) : bool := is_char ":" c.

(** Well-formed: three non-empty fields, no colon inside the first two,
    the path a single word, no NUL anywhere. *)
Record well_formed (m : membership) : Prop := {
  wf_id_nonempty : hierarchy_id m <> [];
  wf_id_colon : no_char is_colon (hierarchy_id m);
  wf_id_nul : no_char is_nul (hierarchy_id m);
  wf_list_nonempty : subsystem_list m <> [];
  wf_list_colon : no_char is_colon (subsystem_list m);
  wf_list_nul : no_char is_nul (subsystem_list m);
  wf_path_nonempty : cgroup_path m <> [];
  wf_path_space : no_char isspace (cgroup_path m);
  wf_path_nul : no_char is_nul (cgroup_path m)
}.

(** The state after one more [fopen]. *)
Definition logged (filename : cstring) (s : State) : State :=
  {| self := self s; opened := opened s ++ [filename] |}.

(** First line of a file as the readers see it. *)
Definition first_line (env : Env) (filename : cstring) : option cstring :=
  match fs env filename with
  | Some content =>
      match file_lines content with
      | l :: _ => Some (c_str l)
      | [] => None
      end
  | None => None
  end.

(** Multiplier that the spec attaches to a unit suffix. *)
Definition unit_multiplier (c : ascii) : Z :=
  if is_char "gG" c then 1073741824
  else if is_char "mM" c then 1048576
  else if is_char "kK" c then 1024
  else 1.

(** The memory limit in the words of the spec: the minimum of the bounds
    that are known, and the sentinel 0 when there is none. *)
Definition minimum_or_sentinel (bounds : list Z) : Z :=
  match bounds with
  | [] => 0
  | b :: r => fold_left Z.min r b
  end.

Definition option_list {A} (o : option A) : list A :=
  match o with Some a => [a] | None => [] end.

Definition rlimit_bound (env : Env) : option Z :=
  match getrlimit_AS env with
  | Some cur => if cur =? RLIM_INFINITY then None else Some cur
  | None => None
  end.

Definition physical_memory_bound (env : Env) : option Z :=
  if (sysconf_PHYS_PAGES env =? -1) || (sysconf_PAGE_SIZE env =? -1) then None
  else Some (sysconf_PHYS_PAGES env * sysconf_PAGE_SIZE env).

Definition stated_memory_limit (env : Env) (cgroup_limit : option Z) : Z :=
  minimum_or_sentinel
    (option_list cgroup_limit ++ option_list (rlimit_bound env)
       ++ option_list (physical_memory_bound env)).

Definition below_max (b : Z) : bool := negb (b =? SIZE_T_MAX).

(** The same, a bound equal to [SIZE_T_MAX] counting as no bound. *)
Definition effective_memory_limit (env : Env) (cgroup_limit : option Z) : Z :=
  minimum_or_sentinel
    (filter below_max
       (option_list cgroup_limit ++ option_list (rlimit_bound env)
          ++ option_list (physical_memory_bound env))).

(** ** Concrete environments *)

Definition text_line (s : string) : list ascii := str s ++ [LF].

Definition text (lines : list string) : list ascii :=
  List.concat (map text_line lines).

Fixpoint files (l : list (string * list ascii)) (name : cstring)
  : option (list ascii) :=
  match l with
  | [] => None
  | (k, v) :: r => if cstring_eqb (str k) name then Some v else files r name
  end.

Definition no_object : CGroup :=
  {| m_memory_cgroup_path := None; m_cpu_cgroup_path := None |}.

Definition initial : State := {| self := no_object; opened := [] |}.

Local Open Scope string_scope.

Definition sample_mountinfo : list ascii :=
  text [ "25 20 0:21 / /sys/fs/cgroup ro,nosuid shared:8 - tmpfs tmpfs ro,mode=755";
         "30 25 0:26 / /sys/fs/cgroup/cpu rw,nosuid shared:13 - cgroup cgroup rw,cpu,cpuacct";
         "31 25 0:27 / /sys/fs/cgroup/memory rw,nosuid shared:14 - cgroup cgroup rw,memory" ].

Definition sample_cgroup : list ascii :=
  text [ "11:memory:/app"; "10:cpu,cpuacct:/app"; "1:name=systemd:/app" ].

(** A container with a 2 GiB memory limit, two and a half cpus, 8 GiB of
    physical memory and no address-space limit. *)
Definition sample_env (limit quota period statm : string) : Env :=
  {| fs := files
       [ ("/proc/self/mountinfo", sample_mountinfo);
         ("/proc/self/cgroup", sample_cgroup);
         ("/sys/fs/cgroup/memory/app/memory.limit_in_bytes", text_line limit);
         ("/sys/fs/cgroup/cpu/app/cpu.cfs_quota_us", text_line quota);
         ("/sys/fs/cgroup/cpu/app/cpu.cfs_period_us", text_line period);
         ("/proc/self/statm", text_line statm) ];
     getrlimit_AS := Some RLIM_INFINITY;
     sysconf_PHYS_PAGES := 2097152;
     sysconf_PAGE_SIZE := 4096;
     VIRTUAL_PAGE_SIZE := 4096 |}.

Definition container_env : Env :=
  sample_env "2g" "250000" "100000" "1234 567 89 1 0 200 0".

Local Close Scope string_scope.


Definition limit_file : cstring :=
  str "/sys/fs/cgroup/memory/app/memory.limit_in_bytes".

(** The byte-count reader on a limit file with the given first line. *)
Definition byte_count_of (content : string) : outcome (bool * option Z) :=
  ReadMemoryValueFromFile (sample_env content "0" "0" "0") limit_file valid initial.

(** ** Auxiliary notions for the cpu limit *)

(** What [ReadCpuCGroupValue] hands back for a control file. *)
Definition cpu_value (env : Env) (this : CGroup) (subsystemFilename : cstring) : Z :=
  match m_cpu_cgroup_path this with
  | None => -1
  | Some path =>
      match first_line env (path ++ subsystemFilename) with
      | None => -1
      | Some line => if snd (atoll line) =? 0 then fst (atoll line) else -1
      end
  end.

(** The read of a cpu control file fails: the directory is unknown, or
    the signed reader reports failure on the file. *)
Definition cpu_read_fails (env : Env) (this : CGroup) (subsystemFilename : cstring)
  : Prop :=
  match m_cpu_cgroup_path this with
  | None => True
  | Some path =>
      forall s, exists w,
        ReadLongLongValueFromFile env (path ++ subsystemFilename) valid s
        = Ok (false, w) (logged (path ++ subsystemFilename) s)
  end.

(** The state after [ReadCpuCGroupValue]. *)
Definition after_cpu_read (subsystemFilename : cstring) (s : State) : State :=
  match m_cpu_cgroup_path (self s) with
  | None => s
  | Some path => logged (path ++ subsystemFilename) s
  end.

(** The state in which the constructor leaves a fresh query object. *)
Definition constructed (env : Env) : State :=
  match CGroup_ctor env initial with
  | Ok _ s => s
  | Crash => initial
  end.

(** The byte-count reader returns, for every first line that [strtoull]
    converts to [n], the product of [n] and the unit's multiplier. *)
Definition returns_scaled_value (env : Env) (filename : cstring) (s : State)
  : Prop :=
  forall line n endptr,
    first_line env filename = Some line ->
    strtoull line = (n, endptr, 0) ->
    ReadMemoryValueFromFile env filename valid s
    = Ok (true, Some (n * unit_multiplier (hd NUL endptr))) (logged filename s).

Definition quota_file : cstring := str "/sys/fs/cgroup/cpu/app/cpu.cfs_quota_us".

(** The guard against a null output pointer comes before any [fopen]. *)
Definition null_guard_before_files (query : ptr -> M (bool * option Z))
    (s : State) : Prop :=
  exists s', query nullptr s = Ok (false, None) s' /\ opened s' = opened s.

(** The files the constructor may open. *)
Definition discovery_file (filename : cstring) : Prop :=
  filename = PROC_MOUNTINFO_FILENAME \/ filename = PROC_CGROUP_FILENAME.

(** The physical-memory-limit query reports the limit of the spec. *)
Definition reports_stated_limit (env : Env) (s : State) : Prop :=
  forall s1 ok w s2,
    CGroup_ctor env s = Ok tt s1 ->
    GetPhysicalMemoryLimit env valid s1 = Ok (ok, w) s2 ->
    PAL_GetRestrictedPhysicalMemoryLimit env s
    = Ok (stated_memory_limit env (if ok then w else None)) s2.

(** The sample container with the largest [size_t] as its memory limit,
    no address-space limit and no answer from [sysconf]. *)
Definition unbounded_env : Env :=
  {| fs := fs (sample_env "18446744073709551615" "250000" "100000" "1 2");
     getrlimit_AS := Some RLIM_INFINITY;
     sysconf_PHYS_PAGES := -1;
     sysconf_PAGE_SIZE := -1;
     VIRTUAL_PAGE_SIZE := 4096 |}.

(** ** Vocabulary for the mount table *)

(** The line has its three fields after the separator and is not a cgroup
    mount of the subsystem: the scan passes over it. *)
Definition passed_over (is_subsystem : cstring -> bool) (line : cstring) : Prop :=
  exists t filesystemType source options rest,
    after_first "-"%char line = Some t
    /\ words t = filesystemType :: source :: options :: rest
    /\ strncmp_eq0 filesystemType (str "cgroup") 6
       && existsb is_subsystem (comma_tokens options) = false.

(** The line is completely matched: three fields after the separator, a
    type that begins with "cgroup", an option accepted by the predicate,
    and [mountpath] as its fifth field. *)
Definition mount_of_line (is_subsystem : cstring -> bool) (line : cstring)
    (mountpath : cstring) : Prop :=
  exists t filesystemType source options rest,
    after_first "-"%char line = Some t
    /\ words t = filesystemType :: source :: options :: rest
    /\ strncmp_eq0 filesystemType (str "cgroup") 6 = true
    /\ existsb is_subsystem (comma_tokens options) = true
    /\ nth_error (words line) 4 = Some mountpath.

(** The first line of a mount table: a mount on a directory with a dash
    in its name, and only the type after the separator. *)
Definition truncated_mount_line : list ascii :=
  text_line "30 25 0:26 / /sys/fs/cgroup/my-cpu rw,nosuid shared:13 - cgroup".

(** That line, followed by the mount of the memory hierarchy. *)
Definition truncated_mountinfo_env : Env :=
  {| fs := files
       [ ("/proc/self/mountinfo"%string,
          truncated_mount_line
            ++ text_line "31 25 0:27 / /sys/fs/cgroup/memory rw shared:14 - cgroup cgroup rw,memory") ];
     getrlimit_AS := None;
     sysconf_PHYS_PAGES := -1;
     sysconf_PAGE_SIZE := -1;
     VIRTUAL_PAGE_SIZE := 4096 |}.

(** An ext4 file system whose root directory is [/x-cgroup], mounted on
    [/mnt] with a mount option called cpu. *)
Definition ext4_mountinfo_env : Env :=
  {| fs := files
       [ ("/proc/self/mountinfo"%string,
          text_line "36 35 98:0 /x-cgroup /mnt rw,cpu shared:2 - ext4 /dev/root rw") ];
     getrlimit_AS := None;
     sysconf_PHYS_PAGES := -1;
     sysconf_PAGE_SIZE := -1;
     VIRTUAL_PAGE_SIZE := 4096 |}.

(** ** Vocabulary for the cgroup membership listing *)

(** The line has the form [<id>:<subsystems>:<path>]: a non-empty id and
    a non-empty subsystem list, both free of colons, then the path, the
    first word after the second colon. *)
Definition membership_form (line subsystems path : cstring) : Prop :=
  exists id rest,
    line = id ++ str ":" ++ subsystems ++ str ":" ++ rest
    /\ id <> [] /\ subsystems <> []
    /\ no_char is_colon id /\ no_char is_colon subsystems
    /\ hd_error (words rest) = Some path.

(** A line of that form whose subsystem list holds no accepted token. *)
Definition other_membership (is_subsystem : cstring -> bool) (line : cstring)
  : Prop :=
  exists subsystems path,
    membership_form line subsystems path
    /\ existsb is_subsystem (comma_tokens subsystems) = false.

(** A line of that form with cgroup path [path] whose subsystem list holds
    an accepted token. *)
Definition membership_of_line (is_subsystem : cstring -> bool) (line : cstring)
    (path : cstring) : Prop :=
  exists subsystems,
    membership_form line subsystems path
    /\ existsb is_subsystem (comma_tokens subsystems) = true.





Definition memory_membership : membership :=
  {| hierarchy_id := str "11"; subsystem_list := str "memory";
     cgroup_path := str "/app" |}.

Definition cpu_membership : membership :=
  {| hierarchy_id := str "10"; subsystem_list := str "cpu,cpuacct";
     cgroup_path := str "/app" |}.

(** The result of a run, [None] for a crash. *)
Definition result_of {A} (o : outcome A) : option A :=
  match o with
  | Ok a _ => Some a
  | Crash => None
  end.

(** The CPU-limit query in the sample container with the given first
    lines of the quota and of the period file. *)
Definition cpu_limit_of (quota period : string) : option (bool * option Z) :=
  result_of (PAL_GetCpuLimit (sample_env "2g" quota period "1 2") valid initial).

(** * Further vocabulary: the rest of the source *)

Definition is_dash (c : ascii) : bool := Ascii.eqb c "-"%char.


(** A memory cgroup mounted on a directory whose name holds a dash. *)
Definition dashed_mount_line : cstring :=
  str "31 25 0:27 / /sys/fs/cgroup/my-mem rw shared:14 - cgroup cgroup rw,memory".

(** The mount path that the scan of the mount table yields. *)
Definition hierarchy_mount (env : Env) (is_subsystem : cstring -> bool)
  : option cstring :=
  match fs env PROC_MOUNTINFO_FILENAME with
  | Some content => FindHierarchyMount_loop is_subsystem (file_lines content)
  | None => None
  end.

(** The cgroup path that the scan of the membership listing yields. *)
Definition relative_path (env : Env) (is_subsystem : cstring -> bool)
  : option cstring :=
  match fs env PROC_CGROUP_FILENAME with
  | Some content =>
      FindCGroupPathForSubsystem_loop is_subsystem (file_lines content)
  | None => None
  end.

(** Mount path and cgroup path put end to end, when both are known. *)
Definition resolved_directory (env : Env) (is_subsystem : cstring -> bool)
  : option cstring :=
  match hierarchy_mount env is_subsystem, relative_path env is_subsystem with
  | Some mount, Some rel => Some (mount ++ rel)
  | _, _ => None
  end.

(** The files opened to resolve one directory: the mount table, and the
    membership listing when a mount was found. *)
Definition discovery_log (env : Env) (is_subsystem : cstring -> bool)
  : list cstring :=
  PROC_MOUNTINFO_FILENAME
    :: match hierarchy_mount env is_subsystem with
       | Some _ => [PROC_CGROUP_FILENAME]
       | None => []
       end.

(** The object that the constructor builds in an environment. *)
Definition resolved_object (env : Env) : CGroup :=
  {| m_memory_cgroup_path := resolved_directory env IsMemorySubsystem;
     m_cpu_cgroup_path := resolved_directory env IsCpuSubsystem |}.

Definition is_lf (c : ascii) : bool := Ascii.eqb c LF.

(** A well-formed membership whose id and subsystem list stay on one
    line. *)
Definition on_one_line (m : membership) : Prop :=
  well_formed m
  /\ no_char is_lf (hierarchy_id m) /\ no_char is_lf (subsystem_list m).

(** The membership listing as the kernel would print it. *)
Definition render_listing (ms : list membership) : list ascii :=
  List.concat (map membership_line ms).

(** The first membership whose subsystem list holds an accepted token. *)
Definition first_membership (is_subsystem : cstring -> bool)
    (ms : list membership) : option membership :=
  find (fun m => existsb is_subsystem (comma_tokens (subsystem_list m))) ms.

Definition colon_membership : membership :=
  {| hierarchy_id := str "10"; subsystem_list := str "cpu,cpuacct";
     cgroup_path := str "/docker:abc" |}.

(** An environment whose membership listing is a rendering. *)
Definition rendered_env : Env :=
  {| fs := files
       [ ("/proc/self/cgroup"%string,
          render_listing [memory_membership; colon_membership]) ];
     getrlimit_AS := None;
     sysconf_PHYS_PAGES := -1;
     sysconf_PAGE_SIZE := -1;
     VIRTUAL_PAGE_SIZE := 4096 |}.

(** The files that [GetCpuLimit] opens under the cpu directory [path]
    when the quota read yields [quota]. *)
Definition cpu_limit_log (path : cstring) (quota : Z) : list cstring :=
  (path ++ CFS_QUOTA_FILENAME)
    :: (if 0 <? quota then [path ++ CFS_PERIOD_FILENAME] else []).

(** The control file the memory query reads, when the directory is
    known. *)
Definition memory_limit_log (env : Env) : list cstring :=
  match resolved_directory env IsMemorySubsystem with
  | Some path => [path ++ MEM_LIMIT_FILENAME]
  | None => []
  end.

(** A host without the cgroup membership listing. *)
Definition no_listing_env : Env :=
  {| fs := files [ ("/proc/self/mountinfo"%string, sample_mountinfo) ];
     getrlimit_AS := Some RLIM_INFINITY;
     sysconf_PHYS_PAGES := 1048576;
     sysconf_PAGE_SIZE := 4096;
     VIRTUAL_PAGE_SIZE := 4096 |}.
(** * Properties *)

(** ** Arithmetic of the conversions *)

Lemma digit_val_nonneg c : 0 <= digit_val c.
Proof.
  unfold digit_val; cbv zeta.
  repeat match goal with
         | |- context [if ?a && ?b then _ else _] =>
             destruct a eqn:?; destruct b eqn:?; simpl
         end; lia.
Qed.

Lemma fold_digits_nonneg base ds : forall acc,
  0 <= base -> 0 <= acc ->
  0 <= fold_left (fun a c => a * base + digit_val c) ds acc.
Proof.
  induction ds as [|d ds IH]; intros acc Hb Ha; simpl; [assumption|].
  apply IH; [assumption|].
  pose proof (digit_val_nonneg d). nia.
Qed.

Lemma detect_base_nonneg s : 0 <= fst (detect_base s).
Proof.
  unfold detect_base.
  destruct s as [|z [|x [|h r]]]; simpl; try lia;
    repeat match goal with |- context [if ?b then _ else _] => destruct b end;
    simpl; lia.
Qed.

Lemma to_size_t_range z : 0 <= to_size_t z <= SIZE_T_MAX.
Proof.
  unfold to_size_t, SIZE_T_MAX.
  pose proof (Z.mod_pos_bound z (2 ^ 64)). lia.
Qed.

Lemma to_size_t_small z : 0 <= z <= SIZE_T_MAX -> to_size_t z = z.
Proof.
  unfold to_size_t, SIZE_T_MAX. intros H. apply Z.mod_small. lia.
Qed.

(** [strtoull] returns a value of its result type. *)
Lemma strtoull_range nptr num endptr errno :
  strtoull nptr = (num, endptr, errno) -> 0 <= num <= ULLONG_MAX.
Proof.
  unfold strtoull.
  destruct (read_sign _) as [neg s2].
  pose proof (detect_base_nonneg s2) as Hb.
  destruct (detect_base s2) as [base s3]; simpl in Hb.
  destruct (span _ s3) as [ds rest].
  destruct ds as [|d ds].
  - intros [= <- _ _]. unfold ULLONG_MAX. lia.
  - set (v := digits_value base (d :: ds)).
    assert (0 <= v) by (apply fold_digits_nonneg; lia).
    destruct (ULLONG_MAX <? v) eqn:E.
    + intros [= <- _ _]. unfold ULLONG_MAX. lia.
    + apply Z.ltb_ge in E.
      destruct neg; intros [= <- _ _]; [apply to_size_t_range | lia].
Qed.

(** The fall-through [switch] computes the multiplier of the unit. *)
Lemma suffix_multiplier_unit c : suffix_multiplier c = unit_multiplier c.
Proof.
  destruct c as [[] [] [] [] [] [] [] []]; reflexivity.
Qed.

Lemma suffix_multiplier_pos c : 0 < suffix_multiplier c.
Proof.
  destruct c as [[] [] [] [] [] [] [] []]; reflexivity.
Qed.

(** The test [*val / multiplier != num] detects exactly the products that
    do not fit in [size_t]. *)
Lemma overflow_test num multiplier :
  0 <= num -> 0 < multiplier ->
  (to_size_t (num * multiplier) / multiplier =? num)
  = (num * multiplier <=? SIZE_T_MAX).
Proof.
  intros Hn Hm.
  destruct (num * multiplier <=? SIZE_T_MAX) eqn:E.
  - apply Z.leb_le in E.
    rewrite to_size_t_small by nia.
    rewrite Z.div_mul by lia. apply Z.eqb_refl.
  - apply Z.leb_gt in E. apply Z.eqb_neq.
    pose proof (to_size_t_range (num * multiplier)) as R.
    assert (to_size_t (num * multiplier) / multiplier < num); [|lia].
    apply Z.div_lt_upper_bound; lia.
Qed.

(** ** The readers, run *)

Lemma ReadMemoryValueFromFile_run env filename s :
  ReadMemoryValueFromFile env filename valid s
  = Ok match first_line env filename with
       | None => (false, None)
       | Some line =>
           let '(num, endptr, errno) := strtoull line in
           if errno =? 0 then
             let multiplier := suffix_multiplier (hd NUL endptr) in
             (num * multiplier <=? SIZE_T_MAX,
              Some (to_size_t (num * multiplier)))
           else (false, None)
       end (logged filename s).
Proof.
  unfold ReadMemoryValueFromFile, first_line, bind, fopen, logged.
  destruct (fs env filename) as [content|]; simpl; [|reflexivity].
  destruct (file_lines content) as [|l ls]; simpl; [reflexivity|].
  destruct (strtoull (c_str l)) as [[num endptr] errno] eqn:E.
  apply strtoull_range in E.
  destruct (errno =? 0); simpl; [|reflexivity].
  unfold bind, ret; simpl.
  rewrite overflow_test by (try apply suffix_multiplier_pos; lia).
  destruct (_ <=? _); reflexivity.
Qed.

Lemma ReadLongLongValueFromFile_run env filename s :
  ReadLongLongValueFromFile env filename valid s
  = Ok match first_line env filename with
       | None => (false, None)
       | Some line => (snd (atoll line) =? 0, Some (fst (atoll line)))
       end (logged filename s).
Proof.
  unfold ReadLongLongValueFromFile, first_line, bind, fopen, logged.
  destruct (fs env filename) as [content|]; simpl; [|reflexivity].
  destruct (file_lines content) as [|l ls]; simpl; [reflexivity|].
  destruct (atoll (c_str l)) as [v errno]; simpl.
  unfold bind, ret; simpl.
  destruct (errno =? 0); reflexivity.
Qed.

(** With a null output pointer neither reader opens its file. *)
Lemma readers_null env filename s :
  ReadMemoryValueFromFile env filename nullptr s = Ok (false, None) s
  /\ ReadLongLongValueFromFile env filename nullptr s = Ok (false, None) s.
Proof. split; reflexivity. Qed.

Lemma ReadCpuCGroupValue_run env subsystemFilename s :
  ReadCpuCGroupValue env subsystemFilename s
  = Ok (cpu_value env (self s) subsystemFilename)
       (after_cpu_read subsystemFilename s).
Proof.
  unfold ReadCpuCGroupValue, cpu_value, after_cpu_read, bind, get_self.
  destruct (m_cpu_cgroup_path (self s)) as [path|]; [|reflexivity].
  rewrite ReadLongLongValueFromFile_run.
  destruct (first_line env _) as [line|]; simpl; [|reflexivity].
  destruct (snd (atoll line) =? 0); reflexivity.
Qed.

Lemma after_cpu_read_self f s : self (after_cpu_read f s) = self s.
Proof.
  unfold after_cpu_read. destruct (m_cpu_cgroup_path (self s)); reflexivity.
Qed.

Lemma cpu_read_fails_value env this f :
  cpu_read_fails env this f -> cpu_value env this f = -1.
Proof.
  unfold cpu_read_fails, cpu_value.
  destruct (m_cpu_cgroup_path this) as [path|]; [|reflexivity].
  intros H. destruct (H initial) as [w Hw].
  rewrite ReadLongLongValueFromFile_run in Hw.
  destruct (first_line env _) as [line|]; [|reflexivity].
  injection Hw as Hb _. rewrite Hb. reflexivity.
Qed.

(** What [GetCpuLimit] computes from the two values read. *)
Lemma GetCpuLimit_run env s :
  let quota := cpu_value env (self s) CFS_QUOTA_FILENAME in
  let period := cpu_value env (self s) CFS_PERIOD_FILENAME in
  let s1 := after_cpu_read CFS_QUOTA_FILENAME s in
  let s2 := after_cpu_read CFS_PERIOD_FILENAME s1 in
  GetCpuLimit env valid s
  = if quota <=? 0 then Ok (false, None) s1
    else if period <=? 0 then Ok (false, None) s2
    else if quota <=? period then Ok (true, Some 1) s2
    else Ok (true, Some (Z.min (quota / period) UINT_MAX)) s2.
Proof.
  cbv zeta. unfold GetCpuLimit, bind.
  rewrite ReadCpuCGroupValue_run.
  set (quota := cpu_value env (self s) CFS_QUOTA_FILENAME).
  destruct (quota <=? 0) eqn:Eq; [reflexivity|].
  rewrite ReadCpuCGroupValue_run, after_cpu_read_self.
  set (period := cpu_value env (self s) CFS_PERIOD_FILENAME).
  destruct (period <=? 0) eqn:Ep; [reflexivity|].
  destruct (quota <=? period) eqn:Eqp; [reflexivity|].
  apply Z.leb_gt in Eq, Ep, Eqp.
  rewrite Z.quot_div_nonneg by lia.
  destruct (quota / period <? UINT_MAX) eqn:Ec; simpl; unfold ret.
  - apply Z.ltb_lt in Ec. rewrite Z.min_l by lia. reflexivity.
  - apply Z.ltb_ge in Ec. rewrite Z.min_r by lia. reflexivity.
Qed.

(** C2. The CPU-limit query fails whenever the quota or the period read
    fails or either value is zero or negative; when both are positive it
    succeeds and reports exactly 1 if quota <= period, and otherwise
    floor(quota / period) clamped to [UINT_MAX]; hence every successful
    return reports a count of at least 1. *)
Theorem GetCpuLimit_spec :
  (forall env s,
    exists quota s1 period s2,
      ReadCpuCGroupValue env CFS_QUOTA_FILENAME s = Ok quota s1
      /\ ReadCpuCGroupValue env CFS_PERIOD_FILENAME s1 = Ok period s2
      /\ (cpu_read_fails env (self s) CFS_QUOTA_FILENAME -> quota = -1)
      /\ (cpu_read_fails env (self s) CFS_PERIOD_FILENAME -> period = -1)
      /\ (quota <= 0 -> GetCpuLimit env valid s = Ok (false, None) s1)
      /\ (0 < quota -> period <= 0 ->
          GetCpuLimit env valid s = Ok (false, None) s2)
      /\ (0 < quota -> 0 < period ->
          GetCpuLimit env valid s
          = Ok (true, Some (if quota <=? period then 1
                            else Z.min (quota / period) UINT_MAX)) s2)
      /\ (forall r s', GetCpuLimit env valid s = Ok (true, r) s' ->
          exists count, r = Some count /\ 1 <= count <= UINT_MAX))
  /\ (cpu_limit_of "50000" "100000" = Some (true, Some 1)
      /\ cpu_limit_of "250000" "100000" = Some (true, Some 2)
      /\ cpu_limit_of "99999999999999" "1" = Some (true, Some UINT_MAX)
      /\ cpu_limit_of "0" "100000" = Some (false, None)
      /\ cpu_limit_of "100000" "0" = Some (false, None)
      /\ cpu_limit_of "-1" "100000" = Some (false, None)
      /\ cpu_limit_of "100000" "-5" = Some (false, None)).
Proof.
  split; [|repeat split; vm_compute; reflexivity].
  intros env s.
  exists (cpu_value env (self s) CFS_QUOTA_FILENAME),
         (after_cpu_read CFS_QUOTA_FILENAME s),
         (cpu_value env (self s) CFS_PERIOD_FILENAME),
         (after_cpu_read CFS_PERIOD_FILENAME (after_cpu_read CFS_QUOTA_FILENAME s)).
  pose proof (GetCpuLimit_run env s) as R. cbv zeta in R.
  set (quota := cpu_value env (self s) CFS_QUOTA_FILENAME) in *.
  set (period := cpu_value env (self s) CFS_PERIOD_FILENAME) in *.
  repeat split.
  - apply ReadCpuCGroupValue_run.
  - rewrite ReadCpuCGroupValue_run, after_cpu_read_self. reflexivity.
  - apply cpu_read_fails_value.
  - apply cpu_read_fails_value.
  - intros H. rewrite R. apply Z.leb_le in H. rewrite H. reflexivity.
  - intros Hq Hp. rewrite R.
    apply Z.leb_gt in Hq. apply Z.leb_le in Hp. rewrite Hq, Hp. reflexivity.
  - intros Hq Hp. rewrite R.
    apply Z.leb_gt in Hq, Hp. rewrite Hq, Hp.
    destruct (quota <=? period); reflexivity.
  - intros r s' H. rewrite R in H.
    destruct (quota <=? 0) eqn:Eq; [discriminate|].
    destruct (period <=? 0) eqn:Ep; [discriminate|].
    apply Z.leb_gt in Eq, Ep.
    destruct (quota <=? period) eqn:Eqp; injection H as <- _.
    + exists 1. unfold UINT_MAX. split; [reflexivity|lia].
    + apply Z.leb_gt in Eqp.
      exists (Z.min (quota / period) UINT_MAX). split; [reflexivity|].
      assert (1 <= quota / period)
        by (apply Z.div_le_lower_bound; lia).
      unfold UINT_MAX in *. lia.
Qed.

(** The sample container has quota 250000 and period 100000: 2 cpus. *)
Lemma GetCpuLimit_spec_witness :
  exists s2,
    GetCpuLimit container_env valid (constructed container_env)
    = Ok (true, Some 2) s2.
Proof.
  destruct (proj1 GetCpuLimit_spec container_env (constructed container_env))
    as (quota & s1 & period & s2 & Hq & Hp & _ & _ & _ & _ & H & _).
  vm_compute in Hq. injection Hq as <- <-.
  vm_compute in Hp. injection Hp as <- <-.
  eexists. rewrite H by lia. reflexivity.
Defined.

(** ** The byte-count reader *)

(** C4. For every parsed value n and suffix multiplier m, if n * m
    overflows [size_t] the byte-count reader reports failure; whenever it
    reports success the value returned is the exact product n * m. *)
Theorem ReadMemoryValueFromFile_no_wrap : forall env filename s,
  (forall line num endptr,
      first_line env filename = Some line ->
      strtoull line = (num, endptr, 0) ->
      SIZE_T_MAX < num * suffix_multiplier (hd NUL endptr) ->
      exists w, ReadMemoryValueFromFile env filename valid s
                = Ok (false, w) (logged filename s))
  /\ (forall val w s',
      ReadMemoryValueFromFile env filename val s = Ok (true, w) s' ->
      exists line num endptr,
        first_line env filename = Some line
        /\ strtoull line = (num, endptr, 0)
        /\ num * suffix_multiplier (hd NUL endptr) <= SIZE_T_MAX
        /\ w = Some (num * suffix_multiplier (hd NUL endptr))).
Proof.
  intros env filename s. split.
  - intros line num endptr Hl Hp Hov.
    rewrite ReadMemoryValueFromFile_run, Hl, Hp. simpl.
    apply Z.leb_gt in Hov. rewrite Hov. eexists. reflexivity.
  - intros [|] w s' H; [discriminate|].
    rewrite ReadMemoryValueFromFile_run in H.
    destruct (first_line env filename) as [line|]; [|discriminate].
    destruct (strtoull line) as [[num endptr] errno] eqn:Hp.
    destruct (errno =? 0) eqn:He; [|discriminate].
    apply Z.eqb_eq in He. subst errno.
    injection H as Hfit <- _.
    apply Z.leb_le in Hfit.
    exists line, num, endptr. repeat split; try assumption.
    rewrite to_size_t_small; [reflexivity|].
    apply strtoull_range in Hp.
    pose proof (suffix_multiplier_pos (hd NUL endptr)). nia.
Qed.

(** 2^54 kibibytes are 2^64 bytes: the reader reports failure. *)
Lemma ReadMemoryValueFromFile_no_wrap_witness :
  exists w, byte_count_of "18014398509481984k" = Ok (false, w) (logged limit_file initial).
Proof.
  refine (proj1 (ReadMemoryValueFromFile_no_wrap
                   (sample_env "18014398509481984k" "0" "0" "0")
                   limit_file initial)
                (str "18014398509481984k" ++ [LF]) 18014398509481984
                (str "k" ++ [LF]) _ _ _);
    vm_compute; reflexivity.
Defined.

(** C3, as stated, fails where the product does not fit: on the line
    "18014398509481984k" the reader reports failure. *)
Lemma ReadMemoryValueFromFile_scaled_counterexample :
  ~ returns_scaled_value (sample_env "18014398509481984k" "0" "0" "0")
      limit_file initial.
Proof.
  intros H.
  specialize (H (str "18014398509481984k" ++ [LF]) 18014398509481984
                (str "k" ++ [LF]) eq_refl eq_refl).
  vm_compute in H. discriminate H.
Qed.

(** C3 (amended). For every first line whose leading unsigned integer
    [strtoull] converts to n, and whose product with the multiplier of the
    suffix fits in [size_t], the byte-count reader returns n times that
    multiplier: 1 without suffix, 1024 for k/K, 1048576 for m/M and
    1073741824 for g/G, the multipliers being computed cumulatively by the
    fall-through switch; "1" yields 1, "1k" 1024, "1m" 1048576 and "1g"
    1073741824. *)
Theorem ReadMemoryValueFromFile_scaled :
  (forall env filename s line n endptr,
      first_line env filename = Some line ->
      strtoull line = (n, endptr, 0) ->
      n * unit_multiplier (hd NUL endptr) <= SIZE_T_MAX ->
      ReadMemoryValueFromFile env filename valid s
      = Ok (true, Some (n * unit_multiplier (hd NUL endptr))) (logged filename s))
  /\ (forall c, suffix_multiplier c = unit_multiplier c)
  /\ (suffix_multiplier "k" = 1024
      /\ suffix_multiplier "m" = 1024 * suffix_multiplier "k"
      /\ suffix_multiplier "g" = 1024 * suffix_multiplier "m")
  /\ (byte_count_of "1" = Ok (true, Some 1) (logged limit_file initial)
      /\ byte_count_of "1k" = Ok (true, Some 1024) (logged limit_file initial)
      /\ byte_count_of "1K" = Ok (true, Some 1024) (logged limit_file initial)
      /\ byte_count_of "1m" = Ok (true, Some 1048576) (logged limit_file initial)
      /\ byte_count_of "1M" = Ok (true, Some 1048576) (logged limit_file initial)
      /\ byte_count_of "1g" = Ok (true, Some 1073741824) (logged limit_file initial)
      /\ byte_count_of "1G" = Ok (true, Some 1073741824) (logged limit_file initial)).
Proof.
  split; [|split; [|split]].
  - intros env filename s line n endptr Hl Hp Hfit.
    rewrite ReadMemoryValueFromFile_run, Hl, Hp. simpl.
    rewrite suffix_multiplier_unit.
    apply Z.leb_le in Hfit. rewrite Hfit.
    apply Z.leb_le in Hfit.
    rewrite to_size_t_small; [reflexivity|].
    apply strtoull_range in Hp.
    pose proof (suffix_multiplier_pos (hd NUL endptr)) as Hm.
    rewrite suffix_multiplier_unit in Hm. nia.
  - apply suffix_multiplier_unit.
  - repeat split.
  - repeat split; vm_compute; reflexivity.
Qed.

(** The line "3m" is converted to 3 and scaled to 3145728. *)
Lemma ReadMemoryValueFromFile_scaled_witness :
  byte_count_of "3m" = Ok (true, Some 3145728) (logged limit_file initial).
Proof.
  refine (proj1 ReadMemoryValueFromFile_scaled
                (sample_env "3m" "0" "0" "0") limit_file initial
                (str "3m" ++ [LF]) 3 (str "m" ++ [LF]) _ _ _);
    vm_compute; [reflexivity | reflexivity | discriminate].
Defined.

(** ** The query object *)

Lemma ReadMemoryValueFromFile_self env filename val s r s' :
  ReadMemoryValueFromFile env filename val s = Ok r s' -> self s' = self s.
Proof.
  destruct val.
  - intros [= _ <-]. reflexivity.
  - rewrite ReadMemoryValueFromFile_run. intros [= _ <-]. reflexivity.
Qed.

Lemma ReadLongLongValueFromFile_self env filename val s r s' :
  ReadLongLongValueFromFile env filename val s = Ok r s' -> self s' = self s.
Proof.
  destruct val.
  - intros [= _ <-]. reflexivity.
  - rewrite ReadLongLongValueFromFile_run. intros [= _ <-]. reflexivity.
Qed.

Lemma GetPhysicalMemoryLimit_self env val s r s' :
  GetPhysicalMemoryLimit env val s = Ok r s' -> self s' = self s.
Proof.
  unfold GetPhysicalMemoryLimit, bind, get_self.
  destruct (m_memory_cgroup_path (self s)).
  - apply ReadMemoryValueFromFile_self.
  - intros [= _ <-]. reflexivity.
Qed.

Lemma GetCpuLimit_self env val s r s' :
  GetCpuLimit env val s = Ok r s' -> self s' = self s.
Proof.
  unfold GetCpuLimit, bind.
  rewrite ReadCpuCGroupValue_run.
  destruct (_ <=? 0).
  { intros [= _ <-]. apply after_cpu_read_self. }
  rewrite ReadCpuCGroupValue_run.
  assert (E : self (after_cpu_read CFS_PERIOD_FILENAME
                      (after_cpu_read CFS_QUOTA_FILENAME s)) = self s)
    by (rewrite !after_cpu_read_self; reflexivity).
  repeat match goal with
         | |- context [if ?b then _ else _] => destruct b
         end;
    destruct val; simpl; try discriminate;
    intros [= _ <-]; exact E.
Qed.

(** C9. When the memory or the cpu directory of a query object is unknown
    (null), every read that depends on it fails at once and opens no file
    (the state, log included, is unchanged); and no read ever changes the
    directory fields of the object. *)
Theorem unknown_directory_reads_fail : forall env s val subsystemFilename,
  (m_memory_cgroup_path (self s) = None ->
     GetPhysicalMemoryLimit env val s = Ok (false, None) s)
  /\ (m_cpu_cgroup_path (self s) = None ->
     ReadCpuCGroupValue env subsystemFilename s = Ok (-1) s
     /\ GetCpuLimit env val s = Ok (false, None) s)
  /\ (forall r s', GetPhysicalMemoryLimit env val s = Ok r s' -> self s' = self s)
  /\ (forall r s', GetCpuLimit env val s = Ok r s' -> self s' = self s)
  /\ (forall r s', ReadCpuCGroupValue env subsystemFilename s = Ok r s' ->
        self s' = self s)
  /\ (forall filename r s',
        ReadMemoryValueFromFile env filename val s = Ok r s' -> self s' = self s)
  /\ (forall filename r s',
        ReadLongLongValueFromFile env filename val s = Ok r s' ->
        self s' = self s).
Proof.
  intros env s val f. split; [|split; [|split; [|split; [|split; [|split]]]]].
  - intros H. unfold GetPhysicalMemoryLimit, bind, get_self. rewrite H. reflexivity.
  - intros H. split.
    + unfold ReadCpuCGroupValue, bind, get_self. rewrite H. reflexivity.
    + unfold GetCpuLimit, ReadCpuCGroupValue, bind, get_self.
      rewrite H. reflexivity.
  - intros r s'. apply GetPhysicalMemoryLimit_self.
  - intros r s'. apply GetCpuLimit_self.
  - intros r s'. rewrite ReadCpuCGroupValue_run. intros [= _ <-].
    apply after_cpu_read_self.
  - intros filename r s'. apply ReadMemoryValueFromFile_self.
  - intros filename r s'. apply ReadLongLongValueFromFile_self.
Qed.

(** An object whose directories are both unknown. *)
Lemma unknown_directory_reads_fail_witness :
  GetPhysicalMemoryLimit container_env valid initial = Ok (false, None) initial
  /\ GetCpuLimit container_env valid initial = Ok (false, None) initial.
Proof.
  pose proof (unknown_directory_reads_fail container_env initial valid
                CFS_QUOTA_FILENAME) as (Hm & Hc & _).
  split; [exact (Hm eq_refl) | exact (proj2 (Hc eq_refl))].
Defined.

(** ** Discovery never crashes and opens the two listings only *)

Lemma FindHierarchyMount_run env is_subsystem s :
  FindHierarchyMount env is_subsystem s
  = Ok match fs env PROC_MOUNTINFO_FILENAME with
       | Some content =>
           FindHierarchyMount_loop is_subsystem (file_lines content)
       | None => None
       end (logged PROC_MOUNTINFO_FILENAME s).
Proof.
  unfold FindHierarchyMount, bind, fopen, logged.
  destruct (fs env PROC_MOUNTINFO_FILENAME); reflexivity.
Qed.

Lemma FindCGroupPathForSubsystem_run env is_subsystem s :
  FindCGroupPathForSubsystem env is_subsystem s
  = Ok match fs env PROC_CGROUP_FILENAME with
       | Some content =>
           FindCGroupPathForSubsystem_loop is_subsystem (file_lines content)
       | None => None
       end (logged PROC_CGROUP_FILENAME s).
Proof.
  unfold FindCGroupPathForSubsystem, bind, fopen, logged.
  destruct (fs env PROC_CGROUP_FILENAME); reflexivity.
Qed.

Lemma FindCgroupPath_log env is_subsystem s :
  exists r log,
    FindCgroupPath env is_subsystem s
    = Ok r {| self := self s;
              opened := opened s ++ PROC_MOUNTINFO_FILENAME :: log |}
    /\ Forall discovery_file log.
Proof.
  unfold FindCgroupPath, bind.
  rewrite FindHierarchyMount_run.
  destruct (match fs env PROC_MOUNTINFO_FILENAME with
            | Some c => _ | None => _ end) as [mount|].
  - rewrite FindCGroupPathForSubsystem_run.
    destruct (match fs env PROC_CGROUP_FILENAME with
              | Some c => _ | None => _ end) as [rel|];
      eexists; exists [PROC_CGROUP_FILENAME];
      (split; [unfold ret, logged; simpl; rewrite <- app_assoc; reflexivity
              | repeat constructor; right; reflexivity]).
  - eexists; exists []. split; [reflexivity | constructor].
Qed.

Lemma CGroup_ctor_log env s :
  exists this log,
    CGroup_ctor env s
    = Ok tt {| self := this;
               opened := opened s ++ PROC_MOUNTINFO_FILENAME :: log |}
    /\ Forall discovery_file log.
Proof.
  unfold CGroup_ctor, FindMemoryCgroupPath, FindCpuCgroupPath, bind.
  destruct (FindCgroupPath_log env IsMemorySubsystem s) as (m & l1 & -> & H1).
  destruct (FindCgroupPath_log env IsCpuSubsystem
              {| self := self s;
                 opened := opened s ++ PROC_MOUNTINFO_FILENAME :: l1 |})
    as (c & l2 & -> & H2).
  simpl. eexists. exists (l1 ++ PROC_MOUNTINFO_FILENAME :: l2).
  split.
  - unfold set_self. simpl. rewrite <- app_assoc. reflexivity.
  - apply Forall_app. split; [assumption|].
    constructor; [left; reflexivity | assumption].
Qed.

(** C10, as stated, fails for the CPU-limit query: in the sample container
    the call with a null pointer has opened the mount table and the cgroup
    listing, twice each, before it returns. *)
Lemma PAL_GetCpuLimit_null_counterexample :
  ~ null_guard_before_files (PAL_GetCpuLimit container_env) initial.
Proof.
  intros (s' & H & Hlog).
  vm_compute in H. injection H as <-.
  discriminate Hlog.
Qed.

(** C10 (amended). Called with a null output pointer, the CPU-limit query
    and the working-set query return failure without dereferencing it (no
    crash, nothing written); the working-set query and the byte-count
    reader do so before any file is opened, the CPU-limit query after its
    query object has been constructed, which opens the mount table and
    possibly the cgroup listing, and no other file. *)
Theorem null_output_pointer : forall env s,
  (exists this log,
      PAL_GetCpuLimit env nullptr s
      = Ok (false, None)
           {| self := this;
              opened := opened s ++ PROC_MOUNTINFO_FILENAME :: log |}
      /\ Forall discovery_file log)
  /\ PAL_GetWorkingSetSize env nullptr s = Ok (false, None) s
  /\ (forall filename,
        ReadMemoryValueFromFile env filename nullptr s = Ok (false, None) s).
Proof.
  intros env s. split; [|split; reflexivity].
  destruct (CGroup_ctor_log env s) as (this & log & E & H).
  exists this, log. split; [|assumption].
  unfold PAL_GetCpuLimit, bind. rewrite E. reflexivity.
Qed.

(** ** Input that is not a number *)

(** C6. On the first line "abc" both readers report success with the
    value 0: the conversions leave [errno] at 0 when they find no digit. *)
Theorem readers_accept_unparseable :
  ReadMemoryValueFromFile (sample_env "abc" "abc" "100000" "1 2") limit_file
    valid initial
  = Ok (true, Some 0) (logged limit_file initial)
  /\ ReadLongLongValueFromFile (sample_env "abc" "abc" "100000" "1 2") quota_file
       valid initial
     = Ok (true, Some 0) (logged quota_file initial).
Proof. split; vm_compute; reflexivity. Qed.

(** C8. With a statistics file of a single field the second [strtok_s]
    call returns NULL, which is handed to [strtoull]: the query crashes.
    With a second field that is not a number it reports success with 0. *)
Theorem PAL_GetWorkingSetSize_missing_field :
  PAL_GetWorkingSetSize (sample_env "2g" "250000" "100000" "4096") valid initial
  = Crash
  /\ PAL_GetWorkingSetSize (sample_env "2g" "250000" "100000" "4096 abc") valid
       initial
     = Ok (true, Some 0) (logged PROC_STATM_FILENAME initial).
Proof. split; vm_compute; reflexivity. Qed.

(** ** The physical memory limit *)

Lemma fold_min_le l : forall acc, fold_left Z.min l acc <= acc.
Proof.
  induction l as [|b l IH]; intros acc; simpl; [lia|].
  specialize (IH (Z.min acc b)). lia.
Qed.

Lemma fold_min_filter l : forall acc,
  acc < SIZE_T_MAX -> Forall (fun b => b <= SIZE_T_MAX) l ->
  fold_left Z.min (filter below_max l) acc = fold_left Z.min l acc.
Proof.
  induction l as [|b l IH]; intros acc Hacc Hl; [reflexivity|].
  inversion Hl as [|? ? Hb Hl']; subst. simpl.
  unfold below_max at 1.
  destruct (b =? SIZE_T_MAX) eqn:E; simpl.
  - apply Z.eqb_eq in E. subst b.
    rewrite Z.min_l by lia. apply IH; assumption.
  - apply IH; [lia | assumption].
Qed.

(** Dropping the bounds equal to [SIZE_T_MAX] and taking the minimum, or 0
    when nothing is left, is what the running minimum started at
    [SIZE_T_MAX] gives once [SIZE_T_MAX] is mapped to 0. *)
Lemma minimum_or_sentinel_filter l :
  Forall (fun b => b <= SIZE_T_MAX) l ->
  minimum_or_sentinel (filter below_max l)
  = let m := fold_left Z.min l SIZE_T_MAX in
    if m =? SIZE_T_MAX then 0 else m.
Proof.
  induction l as [|b l IH]; intros Hl; [reflexivity|].
  inversion Hl as [|? ? Hb Hl']; subst. simpl.
  unfold below_max at 1.
  destruct (b =? SIZE_T_MAX) eqn:E; simpl.
  - apply Z.eqb_eq in E. subst b. rewrite Z.min_id. apply IH. assumption.
  - apply Z.eqb_neq in E.
    rewrite fold_min_filter by (assumption || lia).
    rewrite Z.min_r by lia.
    pose proof (fold_min_le l b).
    destruct (_ =? SIZE_T_MAX) eqn:E'; [apply Z.eqb_eq in E'; lia | reflexivity].
Qed.

Lemma GetPhysicalMemoryLimit_total env s :
  exists ok w s2,
    GetPhysicalMemoryLimit env valid s = Ok (ok, w) s2
    /\ (ok = true -> exists v, w = Some v /\ 0 <= v <= SIZE_T_MAX).
Proof.
  unfold GetPhysicalMemoryLimit, bind, get_self.
  destruct (m_memory_cgroup_path (self s)) as [path|].
  - rewrite ReadMemoryValueFromFile_run.
    destruct (first_line env _) as [line|].
    + destruct (strtoull line) as [[num endptr] errno].
      destruct (errno =? 0).
      * do 3 eexists. split; [reflexivity|].
        intros _. eexists. split; [reflexivity | apply to_size_t_range].
      * do 3 eexists. split; [reflexivity | discriminate].
    + do 3 eexists. split; [reflexivity | discriminate].
  - do 3 eexists. split; [reflexivity | discriminate].
Qed.

Lemma to_size_t_mul p q : to_size_t (to_size_t p * to_size_t q) = to_size_t (p * q).
Proof.
  unfold to_size_t. symmetry. apply Z.mul_mod. lia.
Qed.

(** C1, as stated, fails when the cgroup limit read is [SIZE_T_MAX] and no
    other bound is known: the minimum of the known bounds is [SIZE_T_MAX],
    the query returns 0. *)
Lemma PAL_GetRestrictedPhysicalMemoryLimit_counterexample :
  ~ reports_stated_limit unbounded_env initial.
Proof.
  intros H.
  assert (E1 : CGroup_ctor unbounded_env initial
               = Ok tt (constructed unbounded_env))
    by (vm_compute; reflexivity).
  assert (E2 : GetPhysicalMemoryLimit unbounded_env valid
                 (constructed unbounded_env)
               = Ok (true, Some SIZE_T_MAX)
                    (logged limit_file (constructed unbounded_env)))
    by (vm_compute; reflexivity).
  specialize (H _ _ _ _ E1 E2).
  vm_compute in H. discriminate H.
Qed.

(** C1 (amended). The physical-memory-limit query returns the minimum of
    the cgroup memory limit (when the cgroup read succeeds), the soft
    address-space limit (when [getrlimit] succeeds and the limit is finite)
    and the physical memory, pages times page size (when both are
    queryable and the product fits in [size_t]), a bound equal to
    [SIZE_T_MAX] counting as no bound; when no bound is left it returns the
    sentinel 0. *)
Theorem PAL_GetRestrictedPhysicalMemoryLimit_spec : forall env s,
  (forall cur, getrlimit_AS env = Some cur -> 0 <= cur <= RLIM_INFINITY) ->
  (sysconf_PHYS_PAGES env <> -1 -> sysconf_PAGE_SIZE env <> -1 ->
   0 <= sysconf_PHYS_PAGES env * sysconf_PAGE_SIZE env <= SIZE_T_MAX) ->
  exists s1 ok w s2,
    CGroup_ctor env s = Ok tt s1
    /\ GetPhysicalMemoryLimit env valid s1 = Ok (ok, w) s2
    /\ PAL_GetRestrictedPhysicalMemoryLimit env s
       = Ok (effective_memory_limit env (if ok then w else None)) s2.
Proof.
  intros env s Hrl Hph.
  destruct (CGroup_ctor_log env s) as (this & log & E1 & _).
  destruct (GetPhysicalMemoryLimit_total env
              {| self := this;
                 opened := opened s ++ PROC_MOUNTINFO_FILENAME :: log |})
    as (ok & w & s2 & E2 & Hv).
  do 4 eexists. split; [exact E1|]. split; [exact E2|].
  unfold PAL_GetRestrictedPhysicalMemoryLimit, bind. rewrite E1, E2.
  unfold effective_memory_limit.
  assert (Hle : Forall (fun b => b <= SIZE_T_MAX)
                  (option_list (if ok then w else None)
                     ++ option_list (rlimit_bound env)
                     ++ option_list (physical_memory_bound env))).
  { apply Forall_app; split; [|apply Forall_app; split].
    - destruct ok; [|constructor].
      destruct (Hv eq_refl) as (v & -> & Hvr). repeat constructor. lia.
    - unfold rlimit_bound.
      destruct (getrlimit_AS env) as [cur|] eqn:Er; [|constructor].
      destruct (cur =? RLIM_INFINITY); [constructor|].
      repeat constructor. apply (Hrl cur eq_refl).
    - unfold physical_memory_bound.
      destruct (sysconf_PHYS_PAGES env =? -1) eqn:Ep; [constructor|].
      destruct (sysconf_PAGE_SIZE env =? -1) eqn:Es; [constructor|].
      apply Z.eqb_neq in Ep, Es. repeat constructor. apply Hph; assumption. }
  rewrite (minimum_or_sentinel_filter _ Hle). clear Hle.
  match goal with
  | |- (if ?m =? _ then _ else _) _ = Ok (let _ := ?f in _) _ =>
      assert (Hm : f = m);
      [| cbv zeta; rewrite Hm; destruct (m =? SIZE_T_MAX); reflexivity]
  end.
  unfold rlimit_bound, physical_memory_bound.
  rewrite to_size_t_mul.
  assert (Hl : 0 <= (if negb ok then SIZE_T_MAX else pointee w) <= SIZE_T_MAX
               /\ option_list (if ok then w else None)
                  = if ok then [pointee w] else []).
  { destruct ok; simpl; [|unfold SIZE_T_MAX; split; [lia | reflexivity]].
    destruct (Hv eq_refl) as (v & -> & Hvr). split; [exact Hvr | reflexivity]. }
  destruct Hl as [Hl ->].
  destruct (getrlimit_AS env) as [cur|] eqn:Er.
  - specialize (Hrl cur eq_refl).
    rewrite (to_size_t_small cur) by exact Hrl.
    destruct (sysconf_PHYS_PAGES env =? -1) eqn:Ep; simpl;
      [|destruct (sysconf_PAGE_SIZE env =? -1) eqn:Es; simpl];
      try (apply Z.eqb_neq in Ep; apply Z.eqb_neq in Es;
           specialize (Hph Ep Es); rewrite to_size_t_small by exact Hph);
      destruct (cur =? RLIM_INFINITY) eqn:Ec;
      try apply Z.eqb_eq in Ec;
      destruct ok; simpl in *;
      change RLIM_INFINITY with 18446744073709551615 in *;
      change SIZE_T_MAX with 18446744073709551615 in *; lia.
  - change (to_size_t RLIM_INFINITY) with SIZE_T_MAX.
    destruct (sysconf_PHYS_PAGES env =? -1) eqn:Ep; simpl;
      [|destruct (sysconf_PAGE_SIZE env =? -1) eqn:Es; simpl];
      try (apply Z.eqb_neq in Ep; apply Z.eqb_neq in Es;
           specialize (Hph Ep Es); rewrite to_size_t_small by exact Hph);
      destruct ok; simpl in *;
      change SIZE_T_MAX with 18446744073709551615 in *; lia.
Qed.

(** The sample container: limit 2 GiB, no address-space limit, 8 GiB of
    physical memory; the query reports 2 GiB. *)
Lemma PAL_GetRestrictedPhysicalMemoryLimit_spec_witness :
  exists s2,
    PAL_GetRestrictedPhysicalMemoryLimit container_env initial
    = Ok 2147483648 s2.
Proof.
  destruct (PAL_GetRestrictedPhysicalMemoryLimit_spec container_env initial)
    as (s1 & ok & w & s2 & E1 & E2 & H).
  - intros cur [= <-]. vm_compute. split; discriminate.
  - intros _ _. vm_compute. split; discriminate.
  - vm_compute in E1. injection E1 as <-.
    vm_compute in E2. injection E2 as <- <- <-.
    eexists. rewrite H. reflexivity.
Defined.

(** ** Tokens: [span], [skip], [strtok_s] and the [%s] conversion *)

Lemma span_eq q s :
  s = fst (span q s) ++ snd (span q s)
  /\ forallb q (fst (span q s)) = true
  /\ match snd (span q s) with [] => True | d :: _ => q d = false end.
Proof.
  induction s as [|c r IH]; simpl; [auto|].
  destruct (q c) eqn:E; [|simpl; auto].
  destruct (span q r) as [a b]; simpl in *.
  destruct IH as (-> & Ha & Hb). rewrite E, Ha. auto.
Qed.

Lemma span_app q a b :
  forallb q a = true ->
  match b with [] => True | d :: _ => q d = false end ->
  span q (a ++ b) = (a, b).
Proof.
  intros Ha Hb. induction a as [|c a IH]; simpl in *.
  - destruct b as [|d b]; [reflexivity|]. simpl. rewrite Hb. reflexivity.
  - apply andb_prop in Ha. destruct Ha as [Hc Ha].
    rewrite Hc, (IH Ha). reflexivity.
Qed.

Lemma split_on_span p s :
  split_on p s
  = fst (span (fun c => negb (p c)) s)
    :: match snd (span (fun c => negb (p c)) s) with
       | [] => []
       | _ :: b => split_on p b
       end.
Proof.
  induction s as [|c r IH]; simpl; [reflexivity|].
  destruct (p c); simpl; [reflexivity|].
  rewrite IH. destruct (span _ r) as [a b]; reflexivity.
Qed.

Lemma tokens_skip p s : tokens p (skip p s) = tokens p s.
Proof.
  induction s as [|c r IH]; simpl; [reflexivity|].
  destruct (p c) eqn:E; [|reflexivity].
  rewrite IH. unfold tokens. simpl. rewrite E. reflexivity.
Qed.

Lemma tokens_tl_rest p s :
  tokens p (tl (snd (span (fun c => negb (p c)) s)))
  = tokens p (snd (span (fun c => negb (p c)) s)).
Proof.
  destruct (span_eq (fun c => negb (p c)) s) as (_ & _ & H).
  destruct (snd (span _ s)) as [|d b]; [reflexivity|].
  apply negb_false_iff in H.
  unfold tokens. simpl. rewrite H. reflexivity.
Qed.

(** A text that starts with a character of a token: its first token is
    the [span], the others are those of the rest. *)
Lemma tokens_span p c r :
  p c = false ->
  tokens p (c :: r)
  = fst (span (fun c => negb (p c)) (c :: r))
    :: tokens p (tl (snd (span (fun c => negb (p c)) (c :: r)))).
Proof.
  intros E. unfold tokens at 1. rewrite split_on_span.
  simpl. rewrite E. simpl.
  destruct (span _ r) as [a b]; simpl.
  destruct b; reflexivity.
Qed.

Lemma span_length q s : (List.length (snd (span q s)) <= List.length s)%nat.
Proof.
  induction s as [|c r IH]; simpl; [lia|].
  destruct (q c); simpl; [|lia].
  destruct (span q r); simpl in *. lia.
Qed.

Lemma skip_length p s : (List.length (skip p s) <= List.length s)%nat.
Proof.
  induction s as [|c r IH]; simpl; [lia|].
  destruct (p c); simpl; lia.
Qed.

Lemma skip_head p s :
  match skip p s with [] => True | c :: _ => p c = false end.
Proof.
  induction s as [|c r IH]; simpl; [exact I|].
  destruct (p c) eqn:E; [exact IH | exact E].
Qed.

(** [strtok_s] delivers the tokens one by one, and its context shrinks. *)
Lemma strtok_s_spec delim start context :
  match strtok_s (Some start) delim context with
  | (None, c) => tokens (fun c => mem_char c delim) start = [] /\ c = []
  | (Some tok, c) =>
      tokens (fun c => mem_char c delim) start
      = tok :: tokens (fun c => mem_char c delim) c
      /\ (List.length c < List.length start)%nat
  end.
Proof.
  unfold strtok_s.
  set (p := fun c => mem_char c delim).
  change (fun c => negb (mem_char c delim)) with (fun c => negb (p c)).
  rewrite <- (tokens_skip p start).
  pose proof (skip_head p start) as Hh.
  pose proof (skip_length p start) as Hl.
  destruct (skip p start) as [|c r]; [split; reflexivity|].
  rewrite (tokens_span p c r Hh).
  pose proof (span_length (fun c => negb (p c)) (c :: r)) as Hs.
  destruct (span (fun c0 => negb (p c0)) (c :: r)) as [tok rest] eqn:E.
  simpl fst; simpl snd. split; [reflexivity|].
  simpl in Hs, E. rewrite Hh in E. simpl in E.
  destruct (span (fun c0 => negb (p c0)) r) as [a b] eqn:Er.
  injection E as <- <-.
  pose proof (span_length (fun c => negb (p c)) r) as Hr. rewrite Er in Hr.
  simpl in *. destruct b; simpl in *; lia.
Qed.

Lemma strtok_s_resume delim context :
  strtok_s None delim context = strtok_s (Some context) delim [].
Proof. reflexivity. Qed.

Lemma token_loop_spec is_subsystem : forall fuel strTok context,
  (List.length context < fuel)%nat ->
  token_loop fuel is_subsystem strTok context
  = match strTok with
    | None => false
    | Some tok => is_subsystem tok
                  || existsb is_subsystem (comma_tokens context)
    end.
Proof.
  induction fuel as [|n IH]; intros strTok context Hf; [lia|].
  cbn [token_loop]. destruct strTok as [tok|]; [|reflexivity].
  destruct (is_subsystem tok); [reflexivity|]. cbn [orb].
  rewrite strtok_s_resume.
  generalize (strtok_s_spec (str ",") context []).
  destruct (strtok_s _ _ _) as [[tok'|] c']; intros H.
  - destruct H as [Ht Hc]. unfold comma_tokens, is_comma.
    rewrite Ht. simpl. apply IH. lia.
  - destruct H as [Ht _]. unfold comma_tokens, is_comma.
    rewrite Ht. destruct n; reflexivity.
Qed.

(** The token loop finds a subsystem exactly when one of the
    comma-separated tokens of the list is accepted. *)
Lemma has_subsystem_token_spec is_subsystem subsystems :
  has_subsystem_token is_subsystem subsystems
  = existsb is_subsystem (comma_tokens subsystems).
Proof.
  unfold has_subsystem_token.
  generalize (strtok_s_spec (str ",") subsystems []).
  destruct (strtok_s _ _ _) as [[tok|] c]; intros H.
  - destruct H as [Ht Hc]. rewrite token_loop_spec by lia.
    unfold comma_tokens, is_comma. rewrite Ht. reflexivity.
  - destruct H as [Ht _]. unfold comma_tokens, is_comma. rewrite Ht.
    reflexivity.
Qed.

(** [%s] delivers the first word and stops in front of the others. *)
Lemma scan_s_spec s :
  match scan_s s with
  | None => words s = []
  | Some (w, r) => words s = w :: words r
  end.
Proof.
  unfold scan_s, words.
  rewrite <- (tokens_skip isspace s).
  pose proof (skip_head isspace s) as Hh.
  destruct (skip isspace s) as [|c r]; [reflexivity|].
  rewrite (tokens_span isspace c r Hh), tokens_tl_rest.
  destruct (span _ (c :: r)); reflexivity.
Qed.

(** ** The mount table, line by line *)

Lemma strchr_after_first s c :
  strchr s c = option_map (cons c) (after_first c s).
Proof.
  induction s as [|d r IH]; simpl; [reflexivity|].
  destruct (Ascii.eqb d c) eqn:E; [|exact IH].
  apply Ascii.eqb_eq in E. subst d. reflexivity.
Qed.

(** ["- %s %*s %s"] stores the first and the third word after the
    separator, and returns 2 exactly when there are three words. *)
Lemma sscanf_s_fs_options_spec line :
  sscanf_s_fs_options (strchr line "-")
  = match after_first "-" line with
    | None => (EOF, [], [])
    | Some t =>
        match words t with
        | [] => (EOF, [], [])
        | [w1] => (1, w1, [])
        | [w1; _] => (1, w1, [])
        | w1 :: _ :: w3 :: _ => (2, w1, w3)
        end
    end.
Proof.
  rewrite strchr_after_first.
  destruct (after_first "-" line) as [t|]; [|reflexivity].
  simpl.
  generalize (scan_s_spec t).
  destruct (scan_s t) as [[w1 r1]|]; intros H1; [|rewrite H1; reflexivity].
  rewrite H1.
  generalize (scan_s_spec r1).
  destruct (scan_s r1) as [[w2 r2]|]; intros H2; [|rewrite H2; reflexivity].
  rewrite H2.
  generalize (scan_s_spec r2).
  destruct (scan_s r2) as [[w3 r3]|]; intros H3; rewrite H3; reflexivity.
Qed.

(** ["%*s %*s %*s %*s %s "] stores the fifth word of the line. *)
Lemma sscanf_s_mountpath_spec line :
  sscanf_s_mountpath line
  = match nth_error (words line) 4 with
    | Some w => (1, w)
    | None => (EOF, [])
    end.
Proof.
  unfold sscanf_s_mountpath.
  generalize (scan_s_spec line).
  destruct (scan_s line) as [[w1 r1]|]; intros H1; [|rewrite H1; reflexivity].
  rewrite H1.
  generalize (scan_s_spec r1).
  destruct (scan_s r1) as [[w2 r2]|]; intros H2; [|rewrite H2; reflexivity].
  rewrite H2.
  generalize (scan_s_spec r2).
  destruct (scan_s r2) as [[w3 r3]|]; intros H3; [|rewrite H3; reflexivity].
  rewrite H3.
  generalize (scan_s_spec r3).
  destruct (scan_s r3) as [[w4 r4]|]; intros H4; [|rewrite H4; reflexivity].
  rewrite H4.
  generalize (scan_s_spec r4).
  destruct (scan_s r4) as [[w5 r5]|]; intros H5; rewrite H5; reflexivity.
Qed.

(** One turn of the loop of [FindHierarchyMount], in terms of the fields
    of the line. *)
Lemma mountinfo_line_spec is_subsystem line :
  mountinfo_line is_subsystem line
  = match after_first "-" line with
    | None => Done None
    | Some t =>
        match words t with
        | filesystemType :: _ :: options :: _ =>
            if strncmp_eq0 filesystemType (str "cgroup") 6
               && existsb is_subsystem (comma_tokens options)
            then Done (nth_error (words line) 4)
            else Next
        | _ => Done None
        end
    end.
Proof.
  unfold mountinfo_line.
  rewrite sscanf_s_fs_options_spec.
  destruct (after_first "-" line) as [t|]; [|reflexivity].
  destruct (words t) as [|w1 [|w2 [|w3 rest]]]; try reflexivity.
  cbv beta iota. change (negb (2 =? 2)) with false. cbv iota.
  rewrite has_subsystem_token_spec, sscanf_s_mountpath_spec.
  destruct (strncmp_eq0 w1 (str "cgroup") 6); [|reflexivity].
  destruct (existsb is_subsystem (comma_tokens w3)); [|reflexivity].
  destruct (nth_error (words line) 4); reflexivity.
Qed.

Lemma passed_over_next is_subsystem line :
  passed_over is_subsystem line -> mountinfo_line is_subsystem line = Next.
Proof.
  intros (t & f & src & o & rest & Ha & Hw & Hn).
  rewrite mountinfo_line_spec, Ha, Hw, Hn. reflexivity.
Qed.

(** C5. The scan of the mount table does not fail closed.  The separator
    is taken to be the first dash of the line, so a line that has a dash
    in its mount point and nothing but the type after its separator field
    is passed over, and the mount of a later line is returned; and an ext4
    mount whose root directory is [/x-cgroup] is returned as the mount of
    the cpu hierarchy. *)
Theorem FindHierarchyMount_not_closed :
  lacks_fields_after_separator (c_str truncated_mount_line) = true
  /\ FindHierarchyMount truncated_mountinfo_env IsMemorySubsystem initial
     = Ok (Some (str "/sys/fs/cgroup/memory"))
          (logged PROC_MOUNTINFO_FILENAME initial)
  /\ FindHierarchyMount ext4_mountinfo_env IsCpuSubsystem initial
     = Ok (Some (str "/mnt")) (logged PROC_MOUNTINFO_FILENAME initial).
Proof. repeat split; vm_compute; reflexivity. Qed.

(** ** The cgroup membership listing, line by line *)

Lemma c_str_no_nul s : no_char is_nul s -> c_str s = s.
Proof.
  unfold no_char, is_nul. induction s as [|c r IH]; simpl; [reflexivity|].
  intros H. apply andb_prop in H. destruct H as [Hc Hr].
  apply negb_true_iff in Hc. rewrite Hc, (IH Hr). reflexivity.
Qed.

Lemma no_char_app p a b : no_char p a -> no_char p b -> no_char p (a ++ b).
Proof.
  unfold no_char. intros Ha Hb. rewrite forallb_app, Ha, Hb. reflexivity.
Qed.

Lemma membership_line_c_str m :
  well_formed m -> c_str (membership_line m) = membership_line m.
Proof.
  intros W. apply c_str_no_nul. unfold membership_line.
  repeat apply no_char_app;
    first [apply (wf_id_nul m W) | apply (wf_list_nul m W)
          | apply (wf_path_nul m W) | reflexivity].
Qed.

(** On a well-formed line [sscanf_s] stores the subsystem list and the
    path, and returns 2. *)
Lemma sscanf_s_cgroup_membership m :
  well_formed m ->
  sscanf_s_cgroup (membership_line m) = (2, subsystem_list m, cgroup_path m).
Proof.
  intros W. destruct m as [id subs path].
  destruct W as [Hid Hidc _ Hsubs Hsubsc _ Hpath Hpaths _].
  unfold membership_line, sscanf_s_cgroup; simpl in *.
  rewrite (span_app not_colon id) by (assumption || reflexivity).
  destruct id as [|i id']; [contradiction|].
  rewrite (span_app not_colon subs) by (assumption || reflexivity).
  destruct subs as [|u subs']; [contradiction|].
  unfold scan_s.
  destruct path as [|c path']; [contradiction|].
  assert (Hc : isspace c = false).
  { unfold no_char in Hpaths. simpl in Hpaths.
    apply andb_prop in Hpaths. destruct Hpaths as [Hc _].
    apply negb_true_iff in Hc. exact Hc. }
  change ((c :: path') ++ [LF]) with (c :: (path' ++ [LF])).
  cbn [skip]. rewrite Hc.
  change (c :: (path' ++ [LF])) with ((c :: path') ++ [LF]).
  rewrite (span_app (fun c => negb (isspace c)) (c :: path') [LF])
    by (assumption || reflexivity).
  reflexivity.
Qed.

Lemma not_colon_false d : not_colon d = false -> d = ":"%char.
Proof.
  unfold not_colon, is_char, mem_char. simpl.
  rewrite orb_false_r. intros H. apply negb_false_iff in H.
  apply Ascii.eqb_eq in H. exact H.
Qed.

(** [sscanf_s] returns 2 only on a line of the three-field form. *)
Lemma sscanf_s_cgroup_two line subsystems path :
  sscanf_s_cgroup line = (2, subsystems, path) ->
  membership_form line subsystems path.
Proof.
  unfold sscanf_s_cgroup, membership_form.
  destruct (span_eq not_colon line) as (Hl & Ha & Hb).
  destruct (span not_colon line) as [a b]; simpl in Hl, Ha, Hb.
  destruct a as [|a0 a']; [destruct b; discriminate|].
  destruct b as [|d r1]; [discriminate|].
  apply not_colon_false in Hb. subst d.
  destruct (span_eq not_colon r1) as (Hl2 & Ha2 & Hb2).
  destruct (span not_colon r1) as [u b2]; simpl in Hl2, Ha2, Hb2.
  destruct u as [|u0 u']; [destruct b2; discriminate|].
  destruct b2 as [|d2 r2]; [discriminate|].
  apply not_colon_false in Hb2. subst d2.
  generalize (scan_s_spec r2).
  destruct (scan_s r2) as [[w r3]|]; intros Hw; [|discriminate].
  intros [= <- <-].
  exists (a0 :: a'), r2. subst r1. subst line.
  repeat split; try discriminate; try assumption.
  rewrite Hw. reflexivity.
Qed.

(** Conversely, on a line of the three-field form it returns 2 and
    stores the subsystem list and the path. *)
Lemma sscanf_s_cgroup_form line subsystems path :
  membership_form line subsystems path ->
  sscanf_s_cgroup line = (2, subsystems, path).
Proof.
  intros (id & rest & -> & Hid & Hsubs & Hidc & Hsubsc & Hp).
  unfold sscanf_s_cgroup. simpl.
  rewrite (span_app not_colon id) by (assumption || reflexivity).
  destruct id as [|i id']; [contradiction|].
  rewrite (span_app not_colon subsystems) by (assumption || reflexivity).
  destruct subsystems as [|u subs']; [contradiction|].
  generalize (scan_s_spec rest).
  destruct (scan_s rest) as [[w r]|]; intros Hw; rewrite Hw in Hp.
  - injection Hp as ->. reflexivity.
  - discriminate.
Qed.

(** One turn of the loop of [FindCGroupPathForSubsystem] on a line of the
    three-field form. *)
Lemma cgroup_line_form is_subsystem line subsystems path :
  membership_form line subsystems path ->
  cgroup_line is_subsystem line
  = if existsb is_subsystem (comma_tokens subsystems) then Done (Some path)
    else Next.
Proof.
  intros H. unfold cgroup_line.
  rewrite (sscanf_s_cgroup_form _ _ _ H).
  change (negb (2 =? 2)) with false. cbv iota.
  rewrite has_subsystem_token_spec. reflexivity.
Qed.

(** A well-formed membership gives a line of the three-field form. *)
Lemma membership_line_form m :
  well_formed m ->
  membership_form (c_str (membership_line m)) (subsystem_list m) (cgroup_path m).
Proof.
  intros W. apply sscanf_s_cgroup_two.
  rewrite (membership_line_c_str m W). apply sscanf_s_cgroup_membership, W.
Qed.

Lemma FindCGroupPathForSubsystem_loop_first is_subsystem pre l post path :
  Forall (fun x => other_membership is_subsystem (c_str x)) pre ->
  membership_of_line is_subsystem (c_str l) path ->
  FindCGroupPathForSubsystem_loop is_subsystem (pre ++ l :: post) = Some path.
Proof.
  intros Hpre (subs & Hf & Ht). induction Hpre as [|x pre Hx _ IH]; simpl.
  - rewrite (cgroup_line_form _ _ _ _ Hf), Ht. reflexivity.
  - destruct Hx as (su & pa & Hxf & Hxt).
    rewrite (cgroup_line_form _ _ _ _ Hxf), Hxt. exact IH.
Qed.






Lemma memory_membership_wf : well_formed memory_membership.
Proof. split; solve [discriminate | reflexivity]. Defined.

Lemma cpu_membership_wf : well_formed cpu_membership.
Proof. split; solve [discriminate | reflexivity]. Defined.


(** * Further properties of the source *)

(** ** The mount table: the line that is found *)

Lemma FindHierarchyMount_loop_first is_subsystem pre l post :
  Forall (fun x => passed_over is_subsystem (c_str x)) pre ->
  FindHierarchyMount_loop is_subsystem (pre ++ l :: post)
  = match mountinfo_line is_subsystem (c_str l) with
    | Done r => r
    | Next => FindHierarchyMount_loop is_subsystem post
    end.
Proof.
  intros Hpre. induction Hpre as [|x pre Hx _ IH]; simpl; [reflexivity|].
  rewrite (passed_over_next _ _ Hx). exact IH.
Qed.



Lemma after_first_app c a t :
  no_char (fun d => Ascii.eqb d c) a -> after_first c (a ++ c :: t) = Some t.
Proof.
  unfold no_char. induction a as [|d a IH]; simpl.
  - intros _. rewrite Ascii.eqb_refl. reflexivity.
  - intros H. apply andb_prop in H. destruct H as [Hd Ha].
    apply negb_true_iff in Hd. rewrite Hd. apply IH, Ha.
Qed.

(** X2. For each line the separator is the first ['-'] of the line,
    wherever it lies: the filesystem type and the options are the first
    and the third word after it, and the line is a match when the type
    begins with "cgroup" and an option is accepted; the mount path is the
    fifth word of the whole line. *)
Theorem mountinfo_line_first_dash : forall is_subsystem a t,
  no_char is_dash a ->
  mountinfo_line is_subsystem (a ++ "-"%char :: t)
  = match words t with
    | filesystemType :: _ :: options :: _ =>
        if strncmp_eq0 filesystemType (str "cgroup") 6
           && existsb is_subsystem (comma_tokens options)
        then Done (nth_error (words (a ++ "-"%char :: t)) 4)
        else Next
    | _ => Done None
    end.
Proof.
  intros is_subsystem a t Ha.
  rewrite mountinfo_line_spec, (after_first_app "-" a t Ha). reflexivity.
Qed.

(** A memory cgroup mounted on [/sys/fs/cgroup/my-mem] is passed over:
    the first dash is the one in the directory name. *)
Lemma mountinfo_line_first_dash_witness :
  mountinfo_line IsMemorySubsystem dashed_mount_line = Next.
Proof.
  refine (eq_trans
            (mountinfo_line_first_dash IsMemorySubsystem
               (str "31 25 0:27 / /sys/fs/cgroup/my")
               (str "mem rw shared:14 - cgroup cgroup rw,memory") _) _);
    vm_compute; reflexivity.
Defined.

(** ** The path joiner and the constructor *)

Lemma FindCgroupPath_run env is_subsystem s :
  FindCgroupPath env is_subsystem s
  = Ok (resolved_directory env is_subsystem)
       {| self := self s;
          opened := opened s ++ discovery_log env is_subsystem |}.
Proof.
  unfold FindCgroupPath, bind, resolved_directory, discovery_log.
  rewrite FindHierarchyMount_run. fold (hierarchy_mount env is_subsystem).
  destruct (hierarchy_mount env is_subsystem) as [mount|]; [|reflexivity].
  rewrite FindCGroupPathForSubsystem_run.
  fold (relative_path env is_subsystem).
  unfold logged; simpl. rewrite <- app_assoc.
  destruct (relative_path env is_subsystem); reflexivity.
Qed.

Lemma CGroup_ctor_run env s :
  CGroup_ctor env s
  = Ok tt {| self := resolved_object env;
             opened := opened s ++ discovery_log env IsMemorySubsystem
                         ++ discovery_log env IsCpuSubsystem |}.
Proof.
  unfold CGroup_ctor, FindMemoryCgroupPath, FindCpuCgroupPath, bind.
  rewrite !FindCgroupPath_run. unfold set_self; simpl.
  rewrite <- app_assoc. reflexivity.
Qed.

Lemma mount_of_line_done is_subsystem line mountpath :
  mount_of_line is_subsystem line mountpath ->
  mountinfo_line is_subsystem line = Done (Some mountpath).
Proof.
  intros (t & f & src & o & rest & Ha & Hw & Hf & Ho & Hp).
  rewrite mountinfo_line_spec, Ha, Hw, Hf, Ho, Hp. reflexivity.
Qed.

(** X3. The constructor resolves each of the two directories as the mount
    path of the subsystem followed directly by the cgroup path of the
    process, and leaves it unknown when either is not found.  For each
    subsystem it opens the mount table, and the membership listing only
    when a mount was found; the memory directory is resolved first, and
    neither resolution depends on the other.  So when the first cgroup
    mount of the subsystem has mount path P and the first membership line
    of the subsystem has cgroup path R, the directory is P followed by
    R. *)
Theorem CGroup_ctor_resolves :
  (forall env s,
      CGroup_ctor env s
      = Ok tt {| self := resolved_object env;
                 opened := opened s ++ discovery_log env IsMemorySubsystem
                             ++ discovery_log env IsCpuSubsystem |})
  /\ (forall env is_subsystem mounts pre l post listing pre' l' post' P R,
        fs env PROC_MOUNTINFO_FILENAME = Some mounts ->
        file_lines mounts = pre ++ l :: post ->
        Forall (fun x => passed_over is_subsystem (c_str x)) pre ->
        mount_of_line is_subsystem (c_str l) P ->
        fs env PROC_CGROUP_FILENAME = Some listing ->
        file_lines listing = pre' ++ l' :: post' ->
        Forall (fun x => other_membership is_subsystem (c_str x)) pre' ->
        membership_of_line is_subsystem (c_str l') R ->
        resolved_directory env is_subsystem = Some (P ++ R)).
Proof.
  split.
  - apply CGroup_ctor_run.
  - intros env is_subsystem mounts pre l post listing pre' l' post' P R
      Hm Hml Hpre Hl Hc Hcl Hpre' Hl'.
    unfold resolved_directory, hierarchy_mount, relative_path.
    rewrite Hm, Hml, (FindHierarchyMount_loop_first _ _ _ _ Hpre),
      (mount_of_line_done _ _ _ Hl).
    rewrite Hc, Hcl, (FindCGroupPathForSubsystem_loop_first _ _ _ _ _ Hpre' Hl').
    reflexivity.
Qed.

(** The cpu directory of the sample container. *)
Lemma CGroup_ctor_resolves_witness :
  resolved_directory container_env IsCpuSubsystem
  = Some (str "/sys/fs/cgroup/cpu" ++ str "/app").
Proof.
  refine (proj2 CGroup_ctor_resolves container_env IsCpuSubsystem
            _ [text_line "25 20 0:21 / /sys/fs/cgroup ro,nosuid shared:8 - tmpfs tmpfs ro,mode=755"]
            (text_line "30 25 0:26 / /sys/fs/cgroup/cpu rw,nosuid shared:13 - cgroup cgroup rw,cpu,cpuacct")
            [text_line "31 25 0:27 / /sys/fs/cgroup/memory rw,nosuid shared:14 - cgroup cgroup rw,memory"]
            _ [membership_line memory_membership]
            (membership_line cpu_membership)
            [text_line "1:name=systemd:/app"]
            (str "/sys/fs/cgroup/cpu") (str "/app")
            eq_refl _ _ _ eq_refl _ _ _).
  - vm_compute. reflexivity.
  - constructor; [|constructor].
    exists (text_line " tmpfs tmpfs ro,mode=755"), (str "tmpfs"),
      (str "tmpfs"), (str "ro,mode=755"), [].
    repeat split; vm_compute; reflexivity.
  - exists (text_line " cgroup cgroup rw,cpu,cpuacct"), (str "cgroup"),
      (str "cgroup"), (str "rw,cpu,cpuacct"), [].
    repeat split; vm_compute; reflexivity.
  - vm_compute. reflexivity.
  - constructor; [|constructor].
    exists (str "memory"), (str "/app").
    split; [exact (membership_line_form _ memory_membership_wf) | reflexivity].
  - exists (str "cpu,cpuacct").
    split; [exact (membership_line_form _ cpu_membership_wf) | reflexivity].
Defined.

(** ** Subsystem tokens *)

Lemma cstring_eqb_eq a b : cstring_eqb a b = true <-> a = b.
Proof.
  unfold cstring_eqb. destruct (list_eq_dec ascii_dec a b); split;
    intros H; try assumption; try reflexivity; try discriminate.
  contradiction.
Qed.

Lemma has_token_exact target subsystems :
  has_subsystem_token (strcmp_eq0 target) subsystems = true
  <-> In target (comma_tokens subsystems).
Proof.
  rewrite has_subsystem_token_spec, existsb_exists. split.
  - intros (tok & Hin & He). apply cstring_eqb_eq in He. subst. exact Hin.
  - intros Hin. exists target. split; [exact Hin | apply cstring_eqb_eq; reflexivity].
Qed.

(** X4. A subsystem list names the cpu (memory) subsystem exactly when
    one of its comma-separated tokens is the whole word "cpu" ("memory"):
    the token loop compares whole tokens, so "cpuacct" or "cpuset" alone
    is not taken for "cpu". *)
Theorem subsystem_token_exact : forall subsystems,
  (has_subsystem_token IsCpuSubsystem subsystems = true
   <-> In (str "cpu") (comma_tokens subsystems))
  /\ (has_subsystem_token IsMemorySubsystem subsystems = true
      <-> In (str "memory") (comma_tokens subsystems)).
Proof.
  intros subsystems. split; apply has_token_exact.
Qed.

(** ** The membership listing: rendering and lookup *)

Lemma file_lines_line l rest :
  no_char is_lf l -> file_lines (l ++ LF :: rest) = (l ++ [LF]) :: file_lines rest.
Proof.
  unfold no_char, is_lf. induction l as [|c l IH]; intros H.
  - reflexivity.
  - simpl in H. apply andb_prop in H. destruct H as [Hc Hl].
    apply negb_true_iff in Hc.
    change ((c :: l) ++ LF :: rest) with (c :: (l ++ LF :: rest)).
    cbn [file_lines]. rewrite Hc, (IH Hl). reflexivity.
Qed.

Lemma no_space_no_lf s : no_char isspace s -> no_char is_lf s.
Proof.
  unfold no_char, is_lf. induction s as [|c s IH]; simpl; [reflexivity|].
  intros H. apply andb_prop in H. destruct H as [Hc Hs].
  rewrite (IH Hs), andb_true_r.
  destruct (Ascii.eqb c LF) eqn:E; [|reflexivity].
  apply Ascii.eqb_eq in E. subst c. discriminate Hc.
Qed.

Lemma file_lines_render ms :
  Forall on_one_line ms ->
  file_lines (render_listing ms) = map membership_line ms.
Proof.
  unfold render_listing. induction 1 as [|m ms (W & Hi & Hs) _ IH]; [reflexivity|].
  cbn [map List.concat].
  assert (E : membership_line m
              = (hierarchy_id m ++ str ":" ++ subsystem_list m ++ str ":"
                   ++ cgroup_path m) ++ [LF])
    by (unfold membership_line; rewrite <- !app_assoc; reflexivity).
  rewrite E at 1. rewrite <- app_assoc.
  change ([LF] ++ List.concat (map membership_line ms))
    with (LF :: List.concat (map membership_line ms)).
  rewrite file_lines_line, IH, <- E; [reflexivity|].
  repeat apply no_char_app;
    first [assumption | reflexivity
          | apply no_space_no_lf, (wf_path_space m W)].
Qed.

Lemma FindCGroupPathForSubsystem_loop_find is_subsystem ms :
  Forall well_formed ms ->
  FindCGroupPathForSubsystem_loop is_subsystem (map membership_line ms)
  = option_map cgroup_path (first_membership is_subsystem ms).
Proof.
  unfold first_membership.
  induction 1 as [|m ms W _ IH]; simpl; [reflexivity|].
  rewrite (cgroup_line_form _ _ _ _ (membership_line_form m W)).
  destruct (existsb is_subsystem (comma_tokens (subsystem_list m)));
    [reflexivity | exact IH].
Qed.

(** X5. Lookup in a rendered listing: when the membership listing is the
    rendering [<id>:<subsystems>:<path>], one per line, of well-formed
    memberships, the resolver returns the path of the first membership
    whose subsystem list holds an accepted token, and not found when there
    is none.  The path may itself contain colons. *)
Theorem FindCGroupPathForSubsystem_rendered : forall env is_subsystem s ms,
  fs env PROC_CGROUP_FILENAME = Some (render_listing ms) ->
  Forall on_one_line ms ->
  FindCGroupPathForSubsystem env is_subsystem s
  = Ok (option_map cgroup_path (first_membership is_subsystem ms))
       (logged PROC_CGROUP_FILENAME s).
Proof.
  intros env is_subsystem s ms Hc Hms.
  rewrite FindCGroupPathForSubsystem_run, Hc, (file_lines_render ms Hms).
  rewrite FindCGroupPathForSubsystem_loop_find; [reflexivity|].
  eapply Forall_impl; [|exact Hms]. intros m (W & _). exact W.
Qed.

Lemma colon_membership_on_one_line : on_one_line colon_membership.
Proof.
  split; [split; solve [discriminate | reflexivity] | split; reflexivity].
Defined.

Lemma memory_membership_on_one_line : on_one_line memory_membership.
Proof.
  split; [exact memory_membership_wf | split; reflexivity].
Defined.

(** Two rendered lines, the second with a colon in its path. *)
Lemma FindCGroupPathForSubsystem_rendered_witness :
  FindCGroupPathForSubsystem rendered_env IsCpuSubsystem initial
  = Ok (Some (str "/docker:abc")) (logged PROC_CGROUP_FILENAME initial).
Proof.
  refine (FindCGroupPathForSubsystem_rendered rendered_env IsCpuSubsystem
            initial [memory_membership; colon_membership] eq_refl _).
  constructor; [exact memory_membership_on_one_line|].
  constructor; [exact colon_membership_on_one_line | constructor].
Defined.

(** ** What the readers leave in the output variable *)

(** X6. The byte-count reader never crashes on a valid output pointer and
    opens the one file it is given.  A failure leaves the output variable
    untouched (file unreadable or empty, or the number itself out of
    range), with one exception: when the product with the multiplier
    overflows, the wrapped product has already been stored although the
    reader reports failure. *)
Theorem ReadMemoryValueFromFile_failure : forall env filename s,
  exists result written,
    ReadMemoryValueFromFile env filename valid s
    = Ok (result, written) (logged filename s)
    /\ (first_line env filename = None -> result = false /\ written = None)
    /\ (forall line num endptr errno,
          first_line env filename = Some line ->
          strtoull line = (num, endptr, errno) ->
          errno <> 0 -> result = false /\ written = None)
    /\ (forall v, result = false -> written = Some v ->
          exists line num endptr,
            first_line env filename = Some line
            /\ strtoull line = (num, endptr, 0)
            /\ SIZE_T_MAX < num * suffix_multiplier (hd NUL endptr)
            /\ v = to_size_t (num * suffix_multiplier (hd NUL endptr))).
Proof.
  intros env filename s. rewrite ReadMemoryValueFromFile_run.
  destruct (first_line env filename) as [line|].
  - destruct (strtoull line) as [[num endptr] errno] eqn:Ep.
    destruct (errno =? 0) eqn:Ee.
    + apply Z.eqb_eq in Ee. subst errno.
      do 2 eexists. split; [reflexivity|]. split; [discriminate|]. split.
      * intros l n e er [= <-] Hs. rewrite Ep in Hs. injection Hs as _ _ <-.
        intros H. contradiction H. reflexivity.
      * intros v Hr [= <-]. apply Z.leb_gt in Hr.
        exists line, num, endptr. repeat split; assumption.
    + do 2 eexists. split; [reflexivity|]. split; [discriminate|]. split.
      * intros; split; reflexivity.
      * intros v _ Hv. discriminate Hv.
  - do 2 eexists. split; [reflexivity|]. split; [split; reflexivity|]. split.
    + intros l n e er Hl. discriminate Hl.
    + intros v _ Hv. discriminate Hv.
Qed.

(** ** The files [GetCpuLimit] opens *)

(** X7. With a known cpu directory [GetCpuLimit] opens the quota file
    first, and the period file only when the quota it has read is
    positive; it opens nothing else.  A quota file that holds -1, the
    kernel's "no quota", thus ends the query with failure after one
    file. *)
Theorem GetCpuLimit_files : forall env s path,
  m_cpu_cgroup_path (self s) = Some path ->
  exists r s',
    GetCpuLimit env valid s = Ok r s'
    /\ self s' = self s
    /\ opened s'
       = opened s
           ++ cpu_limit_log path (cpu_value env (self s) CFS_QUOTA_FILENAME)
    /\ (cpu_value env (self s) CFS_QUOTA_FILENAME <= 0 -> r = (false, None)).
Proof.
  intros env s path Hp.
  pose proof (GetCpuLimit_run env s) as R. cbv zeta in R.
  unfold cpu_limit_log, after_cpu_read in *.
  rewrite Hp in *. cbn [self logged] in R. rewrite Hp in R.
  destruct (cpu_value env (self s) CFS_QUOTA_FILENAME <=? 0) eqn:Eq.
  - apply Z.leb_le in Eq.
    assert (E : (0 <? cpu_value env (self s) CFS_QUOTA_FILENAME) = false)
      by (apply Z.ltb_ge; exact Eq).
    rewrite E. do 2 eexists. split; [exact R|].
    repeat split.
  - apply Z.leb_gt in Eq.
    assert (E : (0 <? cpu_value env (self s) CFS_QUOTA_FILENAME) = true)
      by (apply Z.ltb_lt; exact Eq).
    rewrite E.
    assert (L : opened (logged (path ++ CFS_PERIOD_FILENAME)
                          (logged (path ++ CFS_QUOTA_FILENAME) s))
                = opened s ++ [path ++ CFS_QUOTA_FILENAME;
                               path ++ CFS_PERIOD_FILENAME])
      by (simpl; rewrite <- app_assoc; reflexivity).
    repeat match type of R with
           | context [if ?b then _ else _] => destruct b
           end;
      (do 2 eexists; split; [exact R|]; repeat split; try exact L; lia).
Qed.

(** The sample container: quota 250000, both files are opened. *)
Lemma GetCpuLimit_files_witness :
  exists r s',
    GetCpuLimit container_env valid (constructed container_env) = Ok r s'
    /\ opened s'
       = opened (constructed container_env)
           ++ [str "/sys/fs/cgroup/cpu/app/cpu.cfs_quota_us";
               str "/sys/fs/cgroup/cpu/app/cpu.cfs_period_us"].
Proof.
  destruct (GetCpuLimit_files container_env (constructed container_env)
              (str "/sys/fs/cgroup/cpu/app") eq_refl)
    as (r & s' & H & _ & Hlog & _).
  exists r, s'. split; [exact H|]. rewrite Hlog. reflexivity.
Defined.

(** ** Reads on one object do not interfere *)

Lemma GetPhysicalMemoryLimit_result_self env val s s' :
  self s = self s' ->
  result_of (GetPhysicalMemoryLimit env val s)
  = result_of (GetPhysicalMemoryLimit env val s').
Proof.
  intros E. unfold GetPhysicalMemoryLimit, bind, get_self. rewrite E.
  destruct (m_memory_cgroup_path (self s')) as [path|]; [|reflexivity].
  destruct val; [reflexivity|].
  rewrite !ReadMemoryValueFromFile_run. reflexivity.
Qed.

Lemma GetCpuLimit_result_self env val s s' :
  self s = self s' ->
  result_of (GetCpuLimit env val s) = result_of (GetCpuLimit env val s').
Proof.
  intros E. unfold GetCpuLimit, bind.
  rewrite !ReadCpuCGroupValue_run, E.
  destruct (_ <=? 0); [reflexivity|].
  rewrite !ReadCpuCGroupValue_run, !after_cpu_read_self, E.
  repeat match goal with
         | |- context [if ?b then _ else _] => destruct b
         end;
    destruct val; reflexivity.
Qed.

(** X8. The reads of one query object do not interfere: the memory-limit
    read gives the same result after a cpu-limit read as before it,
    whether that read succeeded or failed, and the cpu-limit read gives
    the same result after a memory-limit read. *)
Theorem reads_do_not_interfere : forall env s,
  (forall r s1,
      GetCpuLimit env valid s = Ok r s1 ->
      result_of (GetPhysicalMemoryLimit env valid s1)
      = result_of (GetPhysicalMemoryLimit env valid s))
  /\ (forall r s1,
        GetPhysicalMemoryLimit env valid s = Ok r s1 ->
        result_of (GetCpuLimit env valid s1)
        = result_of (GetCpuLimit env valid s)).
Proof.
  intros env s. split; intros r s1 H.
  - apply GetPhysicalMemoryLimit_result_self.
    exact (GetCpuLimit_self _ _ _ _ _ H).
  - apply GetCpuLimit_result_self.
    exact (GetPhysicalMemoryLimit_self _ _ _ _ _ H).
Qed.

(** In the sample container the memory limit read after the cpu limit is
    still 2 GiB. *)
Lemma reads_do_not_interfere_witness :
  exists s1,
    GetCpuLimit container_env valid (constructed container_env)
    = Ok (true, Some 2) s1
    /\ result_of (GetPhysicalMemoryLimit container_env valid s1)
       = Some (true, Some 2147483648).
Proof.
  destruct (GetCpuLimit container_env valid (constructed container_env))
    as [|r s1] eqn:E; [vm_compute in E; discriminate|].
  exists s1.
  rewrite (proj1 (reads_do_not_interfere container_env
                    (constructed container_env)) r s1 E).
  split; [|vm_compute; reflexivity].
  vm_compute in E. injection E as <- <-. reflexivity.
Defined.

(** ** Bounds of the physical memory limit *)


(** ** The working-set query, field by field *)

(** The two [strtok_s] calls of the working-set query deliver the second
    blank-separated token of the line. *)
Lemma second_token line :
  (let (_, context) := strtok_s (Some line) (str " ") [] in
   fst (strtok_s None (str " ") context))
  = nth_error (tokens is_blank line) 1.
Proof.
  generalize (strtok_s_spec (str " ") line []).
  destruct (strtok_s _ _ _) as [[tok|] c]; intros H.
  - destruct H as [Ht _]. unfold is_blank. rewrite Ht.
    rewrite strtok_s_resume.
    generalize (strtok_s_spec (str " ") c []).
    destruct (strtok_s _ _ _) as [[tok2|] c2]; intros [Ht2 _];
      rewrite Ht2; reflexivity.
  - destruct H as [Ht ->]. unfold is_blank. rewrite Ht. reflexivity.
Qed.

Lemma PAL_GetWorkingSetSize_run env s :
  PAL_GetWorkingSetSize env valid s
  = match first_line env PROC_STATM_FILENAME with
    | None => Ok (false, None) (logged PROC_STATM_FILENAME s)
    | Some line =>
        match nth_error (tokens is_blank line) 1 with
        | None => Crash
        | Some tok =>
            let '(v, _, errno) := strtoull tok in
            Ok (if errno =? 0
                then (true, Some (to_size_t (v * VIRTUAL_PAGE_SIZE env)))
                else (false, Some v))
               (logged PROC_STATM_FILENAME s)
        end
    end.
Proof.
  unfold PAL_GetWorkingSetSize, bind, fopen, first_line.
  destruct (fs env PROC_STATM_FILENAME) as [c|];
    cbn [option_map getline]; [|reflexivity].
  destruct (file_lines c) as [|l ls]; cbn [getline]; [reflexivity|].
  rewrite <- (second_token (c_str l)).
  destruct (strtok_s (Some (c_str l)) _ _) as [t1 context].
  destruct (strtok_s None _ context) as [[tok|] c2]; cbn [fst]; [|reflexivity].
  destruct (strtoull tok) as [[v e] errno].
  unfold bind, ret, store, pointee, logged.
  destruct (errno =? 0); reflexivity.
Qed.

(** X10. The working-set query converts the second blank-separated field
    of the first line of the statistics file and multiplies it by the page
    size in [size_t]; it fails, having stored the converted value, when the
    conversion is out of range; it fails without storing anything when the
    file cannot be opened or is empty; and it crashes when the line has
    fewer than two fields. *)
Theorem PAL_GetWorkingSetSize_fields : forall env s,
  (first_line env PROC_STATM_FILENAME = None ->
     PAL_GetWorkingSetSize env valid s
     = Ok (false, None) (logged PROC_STATM_FILENAME s))
  /\ (forall line size resident others v endptr errno,
        first_line env PROC_STATM_FILENAME = Some line ->
        tokens is_blank line = size :: resident :: others ->
        strtoull resident = (v, endptr, errno) ->
        PAL_GetWorkingSetSize env valid s
        = Ok (if errno =? 0
              then (true, Some (to_size_t (v * VIRTUAL_PAGE_SIZE env)))
              else (false, Some v))
             (logged PROC_STATM_FILENAME s))
  /\ (forall line,
        first_line env PROC_STATM_FILENAME = Some line ->
        (List.length (tokens is_blank line) < 2)%nat ->
        PAL_GetWorkingSetSize env valid s = Crash).
Proof.
  intros env s. rewrite PAL_GetWorkingSetSize_run.
  split; [|split].
  - intros ->. reflexivity.
  - intros line size resident others v endptr errno -> -> Hs.
    simpl. rewrite Hs. reflexivity.
  - intros line -> Hlen.
    destruct (tokens is_blank line) as [|a [|b r]]; simpl in *; try reflexivity.
    lia.
Qed.

(** The sample container: 567 resident pages of 4096 bytes. *)
Lemma PAL_GetWorkingSetSize_fields_witness :
  PAL_GetWorkingSetSize container_env valid initial
  = Ok (true, Some 2322432) (logged PROC_STATM_FILENAME initial).
Proof.
  refine (proj1 (proj2 (PAL_GetWorkingSetSize_fields container_env initial))
            (text_line "1234 567 89 1 0 200 0") (str "1234") (str "567")
            [str "89"; str "1"; str "0"; str "200"; text_line "0"]
            567 [] 0 _ _ _);
    vm_compute; reflexivity.
Defined.

(** ** The CPU-limit entry point *)



(** ** Queries do not depend on what came before *)

Lemma result_of_ok {A} (o : outcome A) a s : o = Ok a s -> result_of o = Some a.
Proof. intros ->. reflexivity. Qed.

(** X12. The result of each of the three entry points depends on the
    environment only, not on the state in which it starts: every call
    builds its object anew, so a query repeated after any other query
    returns what it returned before. *)
Theorem queries_are_independent : forall env val s s',
  result_of (PAL_GetRestrictedPhysicalMemoryLimit env s)
  = result_of (PAL_GetRestrictedPhysicalMemoryLimit env s')
  /\ result_of (PAL_GetCpuLimit env val s)
     = result_of (PAL_GetCpuLimit env val s')
  /\ result_of (PAL_GetWorkingSetSize env val s)
     = result_of (PAL_GetWorkingSetSize env val s').
Proof.
  intros env val s s'. split; [|split].
  - unfold PAL_GetRestrictedPhysicalMemoryLimit, bind.
    rewrite !CGroup_ctor_run.
    set (s1 := {| self := resolved_object env; opened := opened s ++ _ |}).
    set (s1' := {| self := resolved_object env; opened := opened s' ++ _ |}).
    pose proof (GetPhysicalMemoryLimit_result_self env valid s1 s1' eq_refl) as E.
    destruct (GetPhysicalMemoryLimit_total env s1) as (ok & w & s2 & H & _).
    destruct (GetPhysicalMemoryLimit_total env s1') as (ok' & w' & s2' & H' & _).
    rewrite H, H' in *. simpl in E. injection E as -> ->.
    cbv beta iota zeta.
    match goal with
    | |- context [if ?b then ret 0 else _] => destruct b
    end; reflexivity.
  - unfold PAL_GetCpuLimit, bind. rewrite !CGroup_ctor_run.
    destruct val; [reflexivity|].
    apply GetCpuLimit_result_self. reflexivity.
  - destruct val; [reflexivity|].
    rewrite !PAL_GetWorkingSetSize_run.
    destruct (first_line env PROC_STATM_FILENAME) as [line|]; [|reflexivity].
    destruct (nth_error (tokens is_blank line) 1) as [tok|]; [|reflexivity].
    destruct (strtoull tok) as [[v e] errno]. reflexivity.
Qed.

(** ** The files the memory query opens *)

Lemma GetPhysicalMemoryLimit_log env s :
  exists r,
    GetPhysicalMemoryLimit env valid s
    = Ok r {| self := self s;
              opened := opened s
                          ++ match m_memory_cgroup_path (self s) with
                             | Some path => [path ++ MEM_LIMIT_FILENAME]
                             | None => []
                             end |}.
Proof.
  unfold GetPhysicalMemoryLimit, bind, get_self.
  destruct (m_memory_cgroup_path (self s)) as [path|].
  - rewrite ReadMemoryValueFromFile_run. eexists. reflexivity.
  - eexists. rewrite app_nil_r. destruct s; reflexivity.
Qed.

Lemma PAL_GetRestrictedPhysicalMemoryLimit_log env s :
  exists limit,
    PAL_GetRestrictedPhysicalMemoryLimit env s
    = Ok limit
         {| self := resolved_object env;
            opened := opened s ++ discovery_log env IsMemorySubsystem
                        ++ discovery_log env IsCpuSubsystem
                        ++ memory_limit_log env |}.
Proof.
  unfold PAL_GetRestrictedPhysicalMemoryLimit, bind.
  rewrite CGroup_ctor_run.
  destruct (GetPhysicalMemoryLimit_log env
              {| self := resolved_object env;
                 opened := opened s ++ discovery_log env IsMemorySubsystem
                             ++ discovery_log env IsCpuSubsystem |})
    as ([ok w] & ->).
  cbv beta iota zeta. cbn [self opened resolved_object m_memory_cgroup_path].
  fold (memory_limit_log env). rewrite <- !app_assoc.
  match goal with
  | |- context [if ?b then ret 0 else _] => destruct b
  end; eexists; reflexivity.
Qed.

(** X13. The physical-memory-limit query never crashes and opens, in this
    order: the files that resolve the memory directory, the files that
    resolve the cpu directory (which it does not use), and the
    [memory.limit_in_bytes] file of the memory directory when that
    directory is known.  It opens no cpu control file. *)
Theorem PAL_GetRestrictedPhysicalMemoryLimit_files : forall env s,
  exists limit,
    PAL_GetRestrictedPhysicalMemoryLimit env s
    = Ok limit
         {| self := resolved_object env;
            opened := opened s ++ discovery_log env IsMemorySubsystem
                        ++ discovery_log env IsCpuSubsystem
                        ++ memory_limit_log env |}.
Proof.
  intros env s. apply PAL_GetRestrictedPhysicalMemoryLimit_log.
Qed.

(** ** Hosts without the discovery files *)

Lemma resolved_directory_none env is_subsystem :
  fs env PROC_MOUNTINFO_FILENAME = None \/ fs env PROC_CGROUP_FILENAME = None ->
  resolved_directory env is_subsystem = None.
Proof.
  unfold resolved_directory, hierarchy_mount, relative_path.
  intros [-> | ->]; [reflexivity|].
  destruct (match fs env PROC_MOUNTINFO_FILENAME with
            | Some c => _ | None => _ end); reflexivity.
Qed.

(** X14. When the mount table or the membership listing cannot be opened,
    both directories of the query object are unknown; the CPU-limit entry
    point then reports failure, stores nothing, and, like the
    physical-memory-limit query, opens no file beyond those of the
    discovery. *)
Theorem discovery_files_missing : forall env s,
  fs env PROC_MOUNTINFO_FILENAME = None \/ fs env PROC_CGROUP_FILENAME = None ->
  exists s1 limit,
    CGroup_ctor env s = Ok tt s1
    /\ self s1 = no_object
    /\ PAL_GetCpuLimit env valid s = Ok (false, None) s1
    /\ PAL_GetRestrictedPhysicalMemoryLimit env s = Ok limit s1.
Proof.
  intros env s H.
  assert (E : resolved_object env = no_object).
  { unfold resolved_object, no_object.
    rewrite !(resolved_directory_none env _ H). reflexivity. }
  destruct (PAL_GetRestrictedPhysicalMemoryLimit_log env s) as (limit & Hl).
  eexists. exists limit. split; [apply CGroup_ctor_run|].
  split; [exact E|]. split.
  - unfold PAL_GetCpuLimit, bind. rewrite CGroup_ctor_run.
    unfold GetCpuLimit, ReadCpuCGroupValue, bind, get_self. cbn [self].
    rewrite E. reflexivity.
  - rewrite Hl. unfold memory_limit_log.
    rewrite (resolved_directory_none env _ H), app_nil_r. reflexivity.
Qed.

(** A host with a mount table but no membership listing; with 4 GiB of
    memory the limit is 4 GiB. *)
Lemma discovery_files_missing_witness :
  exists s1,
    PAL_GetCpuLimit no_listing_env valid initial = Ok (false, None) s1
    /\ PAL_GetRestrictedPhysicalMemoryLimit no_listing_env initial
       = Ok 4294967296 s1.
Proof.
  destruct (discovery_files_missing no_listing_env initial (or_intror eq_refl))
    as (s1 & limit & _ & _ & Hc & Hm).
  exists s1. split; [exact Hc|].
  rewrite Hm. f_equal.
  vm_compute in Hm. injection Hm as <- _. reflexivity.
Defined.

(** ** The filesystem type *)

Lemma firstn_app_eq {A} (a x : list A) : firstn (List.length a) (a ++ x) = a.
Proof.
  induction a as [|c a IH]; simpl; [reflexivity|]. rewrite IH. reflexivity.
Qed.

(** X15. The test on the filesystem type is a prefix test: a type is
    accepted exactly when it begins with "cgroup", so that "cgroup2" is
    accepted like "cgroup", and "cgr" or "tmpfs" is not. *)
Theorem cgroup_type_prefix : forall filesystemType,
  strncmp_eq0 filesystemType (str "cgroup") 6 = true
  <-> exists rest, filesystemType = str "cgroup" ++ rest.
Proof.
  intros f. unfold strncmp_eq0. rewrite cstring_eqb_eq.
  change (firstn 6 (str "cgroup")) with (str "cgroup"). split.
  - intros H. exists (skipn 6 f).
    rewrite <- H. symmetry. apply firstn_skipn.
  - intros (rest & ->).
    exact (firstn_app_eq (str "cgroup") rest).
Qed.

(** ** Numbers with a leading zero *)

Lemma octal_digit_plain c :
  is_digit 8 c = true ->
  is_char "xX" c = false /\ isspace c = false
  /\ is_char "-" c = false /\ is_char "+" c = false.
Proof.
  destruct c as [[] [] [] [] [] [] [] []]; intros H;
    try discriminate H; repeat split.
Qed.

Lemma strtoull_octal ds rest :
  ds <> [] -> forallb (is_digit 8) ds = true ->
  digits_value 8 ds <= ULLONG_MAX ->
  strtoull (str "0" ++ ds ++ LF :: rest) = (digits_value 8 ds, LF :: rest, 0).
Proof.
  intros Hne Hds Hv.
  destruct ds as [|d ds']; [contradiction|].
  assert (Hd : is_digit 8 d = true)
    by (simpl in Hds; apply andb_prop in Hds; apply Hds).
  destruct (octal_digit_plain d Hd) as (Hx & _ & _ & _).
  unfold strtoull.
  change (str "0" ++ (d :: ds') ++ LF :: rest)
    with ("0"%char :: d :: (ds' ++ LF :: rest)).
  change (skip isspace ("0"%char :: d :: (ds' ++ LF :: rest)))
    with ("0"%char :: d :: (ds' ++ LF :: rest)).
  change (read_sign ("0"%char :: d :: (ds' ++ LF :: rest)))
    with (false, "0"%char :: d :: (ds' ++ LF :: rest)).
  cbv beta iota.
  assert (Eb : detect_base ("0"%char :: d :: (ds' ++ LF :: rest))
               = (8, "0"%char :: d :: (ds' ++ LF :: rest))).
  { unfold detect_base.
    destruct (ds' ++ LF :: rest) as [|h r] eqn:E;
      [destruct ds'; discriminate E|].
    rewrite Hx. reflexivity. }
  rewrite Eb. cbv beta iota.
  change ("0"%char :: d :: (ds' ++ LF :: rest))
    with (("0"%char :: d :: ds') ++ LF :: rest).
  rewrite (span_app (is_digit 8) ("0"%char :: d :: ds') (LF :: rest))
    by (try exact Hds; reflexivity).
  cbv beta iota.
  assert (Ev : digits_value 8 ("0"%char :: d :: ds') = digits_value 8 (d :: ds'))
    by reflexivity.
  rewrite Ev.
  apply Z.ltb_ge in Hv. rewrite Hv. reflexivity.
Qed.

(** X16. The byte-count reader converts with base 0, so a number written
    with a leading zero is read in base 8: a first line made of "0" and
    octal digits yields their octal value, not the decimal one. *)
Theorem ReadMemoryValueFromFile_octal : forall env filename s ds rest,
  ds <> [] -> forallb (is_digit 8) ds = true ->
  digits_value 8 ds <= SIZE_T_MAX ->
  first_line env filename = Some (str "0" ++ ds ++ LF :: rest) ->
  ReadMemoryValueFromFile env filename valid s
  = Ok (true, Some (digits_value 8 ds)) (logged filename s).
Proof.
  intros env filename s ds rest Hne Hds Hv Hl.
  rewrite ReadMemoryValueFromFile_run, Hl, (strtoull_octal ds rest Hne Hds Hv).
  cbv beta iota. change (0 =? 0) with true. cbv iota zeta.
  change (suffix_multiplier (hd NUL (LF :: rest))) with 1.
  rewrite Z.mul_1_r.
  assert (0 <= digits_value 8 ds)
    by (apply fold_digits_nonneg; lia).
  rewrite to_size_t_small by lia.
  apply Z.leb_le in Hv. rewrite Hv. reflexivity.
Qed.

(** The limit file "010" is read as 8. *)
Lemma ReadMemoryValueFromFile_octal_witness :
  byte_count_of "010" = Ok (true, Some 8) (logged limit_file initial).
Proof.
  refine (ReadMemoryValueFromFile_octal (sample_env "010" "0" "0" "0")
            limit_file initial (str "10") [] _ _ _ _);
    [discriminate | reflexivity | vm_compute; discriminate | vm_compute; reflexivity].
Defined.
